(** * Prompt Library MCP agent: the five catalog tools

    A shallow embedding of [PromptLibraryMCP] (the agent class with its
    [promptLibrary] field, [loadPrompts] and the five tool handlers that
    [init] registers) and of the embedded prompt texts of [prompt.ts],
    followed by the properties of the tools.

    Strings are JavaScript strings whose code units all lie below 256, one
    [ascii] per code unit; the embedded prompt texts are plain ASCII. *)

From Stdlib Require Import List String Ascii Arith ZArith Bool Lia.
From Stdlib Require Import Sorting.Sorted Sorting.Permutation.
Import ListNotations.
Open Scope string_scope.

(** ** JavaScript primitives used by the handlers *)

Module JS.

(** [String.prototype.toLowerCase] on one code unit below 256: the upper-case
    letters are A-Z (65-90) and the Latin-1 letters 192-222 without the
    multiplication sign 215; each maps to the code unit 32 above it. *)
Definition lower_unit (c : ascii) : ascii :=
  let n := nat_of_ascii c in
  if ((65 <=? n)%nat && (n <=? 90)%nat)
     || ((192 <=? n)%nat && (n <=? 222)%nat && negb (n =? 215)%nat)
  then ascii_of_nat (n + 32) else c.

Fixpoint toLowerCase (s : string) : string :=
  match s with
  | EmptyString => EmptyString
  | String c t => String (lower_unit c) (toLowerCase t)
  end.

(** [String.prototype.toUpperCase], which the agent applies to category keys
    only: the letters a-z (97-122) map to the code unit 32 below. *)
Definition upper_unit (c : ascii) : ascii :=
  let n := nat_of_ascii c in
  if (97 <=? n)%nat && (n <=? 122)%nat then ascii_of_nat (n - 32) else c.

Fixpoint toUpperCase (s : string) : string :=
  match s with
  | EmptyString => EmptyString
  | String c t => String (upper_unit c) (toUpperCase t)
  end.

(** [s.includes(k)]: [k] occurs in [s] at some index. *)
Fixpoint includes (s k : string) : bool :=
  if prefix k s then true
  else match s with
       | EmptyString => false
       | String _ t => includes t k
       end.

(** [xs.join(sep)] on an array of strings. *)
Fixpoint Array_join (xs : list string) (sep : string) : string :=
  match xs with
  | [] => ""
  | x :: rest =>
      match rest with
      | [] => x
      | _ :: _ => x ++ sep ++ Array_join rest sep
      end
  end.

(** [xs.sort(comparefn)] for a consistent comparator.  ECMAScript fixes the
    outcome in that case: the elements in an order in which no element is
    followed by one that [comparefn] puts strictly before it, elements that
    compare equal keeping their relative order.  [comparefn_pos x y] stands
    for [comparefn(x, y) > 0].  The insertion below moves an element only past
    those that must precede it. *)
Section Sort.
Context {A : Type} (comparefn_pos : A -> A -> bool).

Fixpoint sort_insert (x : A) (l : list A) : list A :=
  match l with
  | [] => [x]
  | y :: l' => if comparefn_pos x y then y :: sort_insert x l' else x :: y :: l'
  end.

Fixpoint Array_sort (l : list A) : list A :=
  match l with
  | [] => []
  | x :: l' => sort_insert x (Array_sort l')
  end.
End Sort.

(** *** Ordinary objects with string keys

    An object created by a literal is the list of its own properties, in the
    order [Object.keys] and [Object.entries] enumerate them.  For keys that are
    not array indices (none of the agent's is one) that is the order in which
    the literal writes them.  Its prototype is [Object.prototype]. *)
Definition Obj (A : Type) : Type := list (string * A).

Fixpoint own_property {A : Type} (o : Obj A) (k : string) : option A :=
  match o with
  | [] => None
  | (k', v) :: o' => if String.eqb k k' then Some v else own_property o' k
  end.

Definition Object_keys {A : Type} (o : Obj A) : list string := map fst o.

Definition Object_entries {A : Type} (o : Obj A) : list (string * A) := o.

(** The properties every ordinary object inherits from [Object.prototype]. *)
Definition Object_prototype_names : list string :=
  [ "constructor"; "hasOwnProperty"; "isPrototypeOf"; "propertyIsEnumerable";
    "toLocaleString"; "toString"; "valueOf"; "__proto__";
    "__defineGetter__"; "__defineSetter__"; "__lookupGetter__"; "__lookupSetter__" ].

Definition inherited (k : string) : bool :=
  existsb (String.eqb k) Object_prototype_names.

(** What reading [o[k]] from an object with string values can yield: nothing,
    an own string, or the member of [Object.prototype] of that name (a
    function, or for [__proto__] the prototype object itself). *)
Inductive Value : Type :=
| Undefined
| Str (s : string)
| PrototypeMember (name : string).

(** [o[k]]: own properties first, then the prototype. *)
Definition Get (o : Obj string) (k : string) : Value :=
  match own_property o k with
  | Some s => Str s
  | None => if inherited k then PrototypeMember k else Undefined
  end.

(** [ToBoolean]: [undefined] and the empty string are falsy, objects and
    functions truthy. *)
Definition ToBoolean (v : Value) : bool :=
  match v with
  | Undefined => false
  | Str s => negb (String.eqb s "")
  | PrototypeMember _ => true
  end.

(** *** Exceptions *)

Inductive Thrown : Type :=
| SyntaxError (pattern : string)
| OtherError (message : string).

Definition Completion (A : Type) : Type := (Thrown + A)%type.

Definition ok {A : Type} (a : A) : Completion A := inr a.
Definition throw {A : Type} (e : Thrown) : Completion A := inl e.

Definition bindE {A B : Type} (m : Completion A) (f : A -> Completion B) : Completion B :=
  match m with
  | inl e => inl e
  | inr a => f a
  end.

(** [try { body } catch (error) { handler }] *)
Definition try_catch {A : Type} (body : Completion A) (handler : Thrown -> A) : A :=
  match body with
  | inr a => a
  | inl e => handler e
  end.

(** [for (const x of xs) { body }] over a loop state [S]. *)
Fixpoint for_of {A S : Type} (xs : list A) (body : A -> S -> Completion S) (s : S) : Completion S :=
  match xs with
  | [] => ok s
  | x :: xs' => bindE (body x s) (for_of xs' body)
  end.

(** *** Regular expressions: [new RegExp(pattern, 'g')] and [s.match(re)]

    The syntax characters of a pattern. *)
Definition syntax_characters : string := "^$\.*+?()[]{}|".

Fixpoint mem_unit (c : ascii) (s : string) : bool :=
  match s with
  | EmptyString => false
  | String d t => Ascii.eqb c d || mem_unit c t
  end.

Definition is_syntax_character (c : ascii) : bool := mem_unit c syntax_characters.

(** Atoms of the patterns interpreted here: a pattern character, which
    matches itself, and the dot, which matches any code unit but a line
    terminator. *)
Inductive Atom : Type :=
| PatternCharacter (c : ascii)
| Dot.

Fixpoint parse_atoms (pattern : string) : option (list Atom) :=
  match pattern with
  | EmptyString => Some []
  | String c t =>
      match parse_atoms t with
      | None => None
      | Some atoms =>
          if Ascii.eqb c "."%char then Some (Dot :: atoms)
          else if is_syntax_character c then None
          else Some (PatternCharacter c :: atoms)
      end
  end.

Definition line_terminator (c : ascii) : bool :=
  Ascii.eqb c "010"%char || Ascii.eqb c "013"%char.

Definition atom_matches (a : Atom) (c : ascii) : bool :=
  match a with
  | PatternCharacter d => Ascii.eqb c d
  | Dot => negb (line_terminator c)
  end.

(** The atoms match at the start of [s]. *)
Fixpoint match_here (atoms : list Atom) (s : string) : bool :=
  match atoms, s with
  | [], _ => true
  | _ :: _, EmptyString => false
  | a :: atoms', String c t => atom_matches a c && match_here atoms' t
  end.

(** Number of matches of a global search: the leftmost match from
    [lastIndex], then again from its end, one code unit further after an
    empty match, until [lastIndex] passes the end of the string.  [skip] code
    units of the last match are still to be passed. *)
Fixpoint match_count (atoms : list Atom) (skip : nat) (s : string) : nat :=
  match skip with
  | S k =>
      match s with
      | EmptyString => 0
      | String _ t => match_count atoms k t
      end
  | 0 =>
      if match_here atoms s
      then S (match s with
              | EmptyString => 0
              | String _ t => match_count atoms (pred (List.length atoms)) t
              end)
      else match s with
           | EmptyString => 0
           | String _ t => match_count atoms 0 t
           end
  end.

Fixpoint count_unit (c : ascii) (s : string) : nat :=
  match s with
  | EmptyString => 0
  | String d t => (if Ascii.eqb c d then 1 else 0) + count_unit c t
  end.

(** A pattern without backslash and without bracket in which more groups
    open than close has an unterminated group. *)
Definition unterminated_group (pattern : string) : bool :=
  negb (mem_unit "\"%char pattern) && negb (mem_unit "["%char pattern)
  && (count_unit ")"%char pattern <? count_unit "("%char pattern)%nat.

(** The regular expression engine of the host beyond the patterns
    interpreted here: for a pattern and a subject string, the error that
    [new RegExp(pattern, 'g')] throws or the number of matches that
    [subject.match] returns ([null] counting as none). *)
Definition RegExpHost : Type := string -> string -> Completion nat.

(** [(subject.match(new RegExp(pattern, 'g')) || []).length] *)
Definition global_match_count (host : RegExpHost) (pattern subject : string) : Completion nat :=
  match parse_atoms pattern with
  | Some atoms => ok (match_count atoms 0 subject)
  | None =>
      if unterminated_group pattern then throw (SyntaxError pattern)
      else host pattern subject
  end.

End JS.

(** ** The embedded prompt texts ([prompt.ts]) *)

Definition componentCreationPrompt : string :=
"# React Component Creation

You are an expert React developer. When creating React components:

## Guidelines:
- Use functional components with hooks
- Follow TypeScript best practices
- Implement proper prop validation with TypeScript interfaces
- Use descriptive component and prop names
- Include proper error boundaries where appropriate
- Follow React best practices for performance (memo, useMemo, useCallback when needed)
- Use modern React patterns (hooks, context, suspense)

## Component Structure:
1. Import statements
2. TypeScript interfaces/types
3. Component definition
4. Default props (if needed)
5. Export statement

## Example Pattern:
```typescript
import React, { useState, useCallback } from 'react';

interface ComponentProps {
  title: string;
  onAction?: (data: string) => void;
  isLoading?: boolean;
}

const Component: React.FC<ComponentProps> = ({ 
  title, 
  onAction, 
  isLoading = false 
}) => {
  // Component logic here
  
  return (
    <div>
      {/* JSX here */}
    </div>
  );
};

export default Component;
```

Always prioritize accessibility, performance, and maintainability.".

Definition stateManagementPrompt : string :=
"# React State Management

You are an expert in React state management. When working with state:

## State Management Guidelines:
- Use `useState` for local component state
- Use `useReducer` for complex state logic
- Use `useContext` for shared state across components
- Consider external libraries (Redux, Zustand) for complex global state
- Always use immutable updates
- Avoid unnecessary re-renders with proper memoization

## Hook Usage:
- `useState`: Simple local state
- `useEffect`: Side effects and lifecycle management
- `useMemo`: Expensive calculations
- `useCallback`: Function memoization
- `useRef`: DOM access and persistent values
- `useContext`: Consuming context values

## State Update Patterns:
```typescript
// Object state updates
setState(prev => ({ ...prev, newProperty: value }));

// Array state updates
setItems(prev => [...prev, newItem]);
setItems(prev => prev.filter(item => item.id !== id));

// Complex state with useReducer
const [state, dispatch] = useReducer(reducer, initialState);
```

## Performance Considerations:
- Use React.memo for component memoization
- Split state to avoid unnecessary re-renders
- Use callback pattern for state updates
- Consider state colocation principles

Always ensure predictable state updates and avoid side effects in render functions.".

Definition performanceOptimizationPrompt : string :=
"# Frontend Performance Optimization

You are an expert in frontend performance optimization. When optimizing web applications:

## Core Web Vitals:
- **Largest Contentful Paint (LCP)**: < 2.5s
- **First Input Delay (FID)**: < 100ms
- **Cumulative Layout Shift (CLS)**: < 0.1

## Optimization Strategies:

### Loading Performance:
- Implement code splitting and lazy loading
- Optimize images (WebP, AVIF, proper sizing)
- Use efficient bundling strategies
- Implement proper caching strategies
- Minimize and compress assets
- Use CDN for static assets

### Runtime Performance:
- Avoid blocking the main thread
- Implement virtual scrolling for large lists
- Use web workers for heavy computations
- Optimize DOM manipulations
- Implement efficient event handling
- Use requestAnimationFrame for animations

### Memory Management:
- Clean up event listeners and subscriptions
- Avoid memory leaks in closures
- Use WeakMap/WeakSet for caching
- Implement proper garbage collection patterns

### Bundle Optimization:
- Tree shaking for unused code
- Module federation for micro-frontends
- Dynamic imports for route-based splitting
- Analyze bundle size regularly

## Measurement Tools:
- Lighthouse
- Chrome DevTools Performance tab
- Web Vitals extension
- Bundle analyzers

Always measure before and after optimizations to validate improvements.".

Definition accessibilityPrompt : string :=
"# Frontend Accessibility (A11y)

You are an expert in web accessibility. When developing accessible web applications:

## WCAG 2.1 Guidelines:
- **Perceivable**: Information must be presentable in ways users can perceive
- **Operable**: Interface components must be operable
- **Understandable**: Information and UI operation must be understandable
- **Robust**: Content must be robust enough for various assistive technologies

## Key Accessibility Practices:

### Semantic HTML:
- Use proper heading hierarchy (h1-h6)
- Use semantic elements (nav, main, article, section, aside)
- Implement proper form labels and fieldsets
- Use lists for grouped content
- Provide alternative text for images

### ARIA Implementation:
- Use ARIA labels and descriptions appropriately
- Implement proper ARIA roles
- Manage focus and keyboard navigation
- Use ARIA live regions for dynamic content
- Implement skip links for navigation

### Keyboard Navigation:
- Ensure all interactive elements are keyboard accessible
- Implement proper focus management
- Use logical tab order
- Provide visible focus indicators
- Support standard keyboard shortcuts

### Color and Contrast:
- Maintain minimum contrast ratios (4.5:1 for normal text, 3:1 for large text)
- Don't rely solely on color for information
- Support high contrast modes
- Test with colorblindness simulators

### Screen Reader Support:
- Test with screen readers (NVDA, JAWS, VoiceOver)
- Provide meaningful text alternatives
- Use proper heading structure
- Implement descriptive link text

## Testing Tools:
- axe-core browser extension
- Lighthouse accessibility audit
- Screen reader testing
- Keyboard-only navigation testing
- Color contrast analyzers

Always test with real users and assistive technologies when possible.".

Definition codeQualityPrompt : string :=
"# Code Quality and Best Practices

You are an expert software developer focused on code quality. When writing and reviewing code:

## Code Quality Principles:

### Clean Code:
- Write self-documenting code with clear variable and function names
- Keep functions small and focused on single responsibility
- Use consistent naming conventions
- Avoid deep nesting and complex conditional logic
- Write meaningful comments for complex business logic
- Remove dead code and unused imports

### SOLID Principles:
- **Single Responsibility**: Each class/function should have one reason to change
- **Open/Closed**: Open for extension, closed for modification
- **Liskov Substitution**: Derived classes must be substitutable for base classes
- **Interface Segregation**: Clients shouldn't depend on interfaces they don't use
- **Dependency Inversion**: Depend on abstractions, not concretions

### Error Handling:
- Implement comprehensive error handling
- Use appropriate error types and messages
- Log errors with sufficient context
- Provide graceful fallbacks
- Validate inputs and handle edge cases

### Testing:
- Write unit tests for all business logic
- Implement integration tests for critical paths
- Use test-driven development (TDD) when appropriate
- Maintain high test coverage (aim for 80%+)
- Write clear, descriptive test names

### Code Organization:
- Use consistent file and folder structure
- Implement proper separation of concerns
- Follow established architectural patterns
- Use meaningful module boundaries
- Document architectural decisions

### Performance:
- Optimize for readability first, performance second
- Avoid premature optimization
- Profile before optimizing
- Use appropriate data structures and algorithms
- Consider memory usage and garbage collection

Always prioritize maintainability and readability over clever solutions.".

(** ** The agent ([PromptLibraryMCP]) *)

Import JS.

(** [type PromptCategory = "react" | "fe" | "common"], the values that the
    tool schemas [z.enum(["react", "fe", "common"])] let through. *)
Inductive PromptCategory : Type := react | fe | common.

Definition category_key (category : PromptCategory) : string :=
  match category with
  | react => "react"
  | fe => "fe"
  | common => "common"
  end.

(** [interface PromptLibrary]: category key to prompt name to text. *)
Definition PromptLibrary : Type := Obj (Obj string).

(** The state of an agent: the tools registered with its [server] and the
    [promptLibrary] field. *)
Record PromptLibraryMCP : Type := {
  server_tools : list string;
  promptLibrary : PromptLibrary
}.

(** A freshly constructed agent: no tool yet, [promptLibrary = {}]. *)
Definition new_agent : PromptLibraryMCP :=
  {| server_tools := []; promptLibrary := [] |}.

(** Methods and tool callbacks run on [this]. *)
Definition Handler (A : Type) : Type := PromptLibraryMCP -> A * PromptLibraryMCP.

Definition ret {A : Type} (a : A) : Handler A := fun this => (a, this).

Definition bind {A B : Type} (m : Handler A) (f : A -> Handler B) : Handler B :=
  fun this => let (a, this') := m this in f a this'.

Notation "x <- m ;; k" := (bind m (fun x => k))
  (at level 61, m at next level, right associativity).

Definition this_promptLibrary : Handler PromptLibrary :=
  fun this => (promptLibrary this, this).

Definition set_promptLibrary (lib : PromptLibrary) : Handler unit :=
  fun this => (tt, {| server_tools := server_tools this; promptLibrary := lib |}).

Definition server_tool (name : string) : Handler unit :=
  fun this => (tt, {| server_tools := server_tools this ++ [name];
                      promptLibrary := promptLibrary this |}).

(** *** Result payloads

    Every callback returns [{ content: [{ type: "text", text }] }]; a
    [ToolResult] is what [text] carries: a message, a prompt, or the object
    handed to [JSON.stringify]. *)
Record CombinedPrompts : Type := {
  combined_prompt : string;
  included_prompts : list (string * string);
  total_prompts : nat;
  categories_processed : list string
}.

(** An element of [searchResults]. *)
Record SearchMatch : Type := {
  match_category : string;
  match_name : string;
  match_content : string;
  match_relevance : nat
}.

(** An element of the [results] that [search_prompts] returns. *)
Record SearchHit : Type := {
  hit_category : string;
  hit_name : string;
  hit_relevance : nat;
  hit_snippet : string
}.

Record SearchOutput : Type := {
  search_keyword : string;
  results : list SearchHit;
  total_found : nat
}.

Inductive ToolResult : Type :=
| Categories (categories : list string)
    (* { categories, description } *)
| PromptList (category : string) (prompts : list (string * Value)) (count : nat)
| PromptText (prompt : Value)
| Combined (result : CombinedPrompts)
| SearchResults (output : SearchOutput)
| CategoryNotFound (category : string)
    (* Error: Category '<category>' not found *)
| PromptNotFound (name category : string)
    (* Error: Prompt '<name>' not found in category '<category>' *)
| NoPromptsFound
    (* No prompts found for the specified categories *)
| Fault (context : string) (error : Thrown).
    (* <context>: <error.message>, from a catch block *)

(** *** [loadPrompts] *)

Definition promptLiteral : PromptLibrary :=
  [ ("react", [ ("component-creation", componentCreationPrompt);
                ("state-management", stateManagementPrompt) ]);
    ("fe", [ ("performance-optimization", performanceOptimizationPrompt);
             ("accessibility", accessibilityPrompt) ]);
    ("common", [ ("code-quality", codeQualityPrompt) ]) ].

(** The [try] block assigns the object it builds; the [catch] block assigns
    [{}].  [built] is the outcome of building the object. *)
Definition loadPrompts_from (built : Completion PromptLibrary) : Handler unit :=
  set_promptLibrary (try_catch built (fun _ => [])).

Definition loadPrompts : Handler unit := loadPrompts_from (ok promptLiteral).

(** *** The tool callbacks *)

Definition get_categories : Handler ToolResult :=
  lib <- this_promptLibrary ;;
  ret (Categories (Object_keys lib)).

Definition get_prompts_by_category (category : PromptCategory) : Handler ToolResult :=
  lib <- this_promptLibrary ;;
  ret (try_catch
         (match own_property lib (category_key category) with
          | None => ok (CategoryNotFound (category_key category))
          | Some categoryPrompts =>
              let promptList :=
                map (fun name => (name, Get categoryPrompts name))
                    (Object_keys categoryPrompts) in
              ok (PromptList (category_key category) promptList (List.length promptList))
          end)
         (Fault ("Error retrieving prompts for category '"
                 ++ category_key category ++ "'"))).

Definition get_prompt (category : PromptCategory) (name : string) : Handler ToolResult :=
  lib <- this_promptLibrary ;;
  ret (try_catch
         (match own_property lib (category_key category) with
          | None => ok (CategoryNotFound (category_key category))
          | Some categoryPrompts =>
              let prompt := Get categoryPrompts name in
              if negb (ToBoolean prompt)
              then ok (PromptNotFound name (category_key category))
              else ok (PromptText prompt)
          end)
         (Fault ("Error retrieving prompt '" ++ name ++ "' from category '"
                 ++ category_key category ++ "'"))).

Definition newline : string := String "010"%char "".

Definition default_separator : string :=
  newline ++ newline ++ "---" ++ newline ++ newline.

(** The block pushed for one prompt. *)
Definition prompt_block (category name content : string) : string :=
  "# Category: " ++ toUpperCase category ++ newline
  ++ "# Prompt: " ++ name ++ newline ++ newline ++ content.

(** The two arrays that [combine_prompts] fills. *)
Definition Combining : Type := (list string * list (string * string))%type.

Definition combine_entry (category : string) (arrays : Combining)
    (entry : string * string) : Combining :=
  let (combinedPrompts, includedPrompts) := arrays in
  let (name, content) := entry in
  ((combinedPrompts ++ [prompt_block category name content])%list,
   (includedPrompts ++ [(category, name)])%list).

Definition combine_category (lib : PromptLibrary) (arrays : Combining)
    (category : string) : Combining :=
  match own_property lib category with
  | Some categoryPrompts =>
      fold_left (combine_entry category) (Object_entries categoryPrompts) arrays
  | None => arrays
  end.

Definition combine_prompts (categories : list PromptCategory)
    (separator : option string) : Handler ToolResult :=
  lib <- this_promptLibrary ;;
  ret (try_catch
         (let separator :=
            match separator with Some s => s | None => default_separator end in
          let (combinedPrompts, includedPrompts) :=
            fold_left (combine_category lib) (map category_key categories) ([], []) in
          if (List.length combinedPrompts =? 0)%nat
          then ok NoPromptsFound
          else ok (Combined
                     {| combined_prompt := Array_join combinedPrompts separator;
                        included_prompts := includedPrompts;
                        total_prompts := List.length combinedPrompts;
                        categories_processed := map category_key categories |}))
         (Fault "Error combining prompts")).

Section Search.
Variable host : RegExpHost.

Definition search_entry (keyword category : string) (entry : string * string)
    (searchResults : list SearchMatch) : Completion (list SearchMatch) :=
  let (name, content) := entry in
  let lowerKeyword := toLowerCase keyword in
  let lowerContent := toLowerCase content in
  let lowerName := toLowerCase name in
  if includes lowerContent lowerKeyword || includes lowerName lowerKeyword
  then
    bindE (global_match_count host lowerKeyword (toLowerCase content))
      (fun occurrences =>
         let relevance :=
           ((if includes lowerName lowerKeyword then 10 else 0) + occurrences)%nat in
         ok (searchResults
               ++ [ {| match_category := category; match_name := name;
                       match_content := content;
                       match_relevance := relevance |} ])%list)
  else ok searchResults.

Definition search_category (lib : PromptLibrary) (keyword category : string)
    (searchResults : list SearchMatch) : Completion (list SearchMatch) :=
  match own_property lib category with
  | Some categoryPrompts =>
      for_of (Object_entries categoryPrompts) (search_entry keyword category)
             searchResults
  | None => ok searchResults
  end.

(** [(a, b) => b.relevance - a.relevance] *)
Definition by_relevance (a b : SearchMatch) : Z :=
  (Z.of_nat (match_relevance b) - Z.of_nat (match_relevance a))%Z.

Definition snippet (content : string) : string :=
  substring 0 200 content
  ++ (if (200 <? String.length content)%nat then "..." else "").

Definition to_hit (m : SearchMatch) : SearchHit :=
  {| hit_category := match_category m; hit_name := match_name m;
     hit_relevance := match_relevance m;
     hit_snippet := snippet (match_content m) |}.

Definition search_prompts (keyword : string)
    (categories : option (list PromptCategory)) : Handler ToolResult :=
  lib <- this_promptLibrary ;;
  ret (try_catch
         (let searchCategories :=
            match categories with
            | Some cs => map category_key cs
            | None => Object_keys lib
            end in
          bindE (for_of searchCategories (search_category lib keyword) [])
            (fun searchResults =>
               let sorted :=
                 Array_sort (fun a b => (0 <? by_relevance a b)%Z) searchResults in
               ok (SearchResults
                     {| search_keyword := keyword;
                        results := map to_hit sorted;
                        total_found := List.length sorted |})))
         (Fault "Error searching prompts")).
End Search.

(** *** [init]

    [init] awaits [loadPrompts] and then registers the five tools. *)
Definition init_from (built : Completion PromptLibrary) : Handler unit :=
  _ <- loadPrompts_from built ;;
  _ <- server_tool "get_categories" ;;
  _ <- server_tool "get_prompts_by_category" ;;
  _ <- server_tool "get_prompt" ;;
  _ <- server_tool "combine_prompts" ;;
  server_tool "search_prompts".

Definition init : Handler unit := init_from (ok promptLiteral).

(** The agent that serves requests. *)
Definition agent : PromptLibraryMCP := snd (init new_agent).

(** ** Notions used in the statements *)

(** Distinct keys: an object holds one property per key. *)
Fixpoint distinct (keys : list string) : bool :=
  match keys with
  | [] => true
  | k :: ks => negb (existsb (String.eqb k) ks) && distinct ks
  end.

(** Array indices are written in decimal digits, so a key that does not
    start with a digit is none; such keys are enumerated in the order in which
    they were created. *)
Definition starts_with_digit (k : string) : bool :=
  match k with
  | EmptyString => false
  | String c _ => let n := nat_of_ascii c in (48 <=? n)%nat && (n <=? 57)%nat
  end.

Definition keys_in_order (keys : list string) : bool :=
  distinct keys && forallb (fun k => negb (starts_with_digit k)) keys.

(** A library whose keys, at either level, are distinct and enumerated as
    written. *)
Definition well_formed (lib : PromptLibrary) : bool :=
  keys_in_order (Object_keys lib)
  && forallb (fun category => keys_in_order (Object_keys (snd category))) lib.

(** No prompt text is the empty string. *)
Definition texts_nonempty (lib : PromptLibrary) : bool :=
  forallb (fun category =>
             forallb (fun prompt => negb (String.eqb (snd prompt) "")) (snd category))
          lib.

(** The category is a key of the library. *)
Definition registered (lib : PromptLibrary) (category : PromptCategory) : bool :=
  match own_property lib (category_key category) with
  | Some _ => true
  | None => false
  end.

(** The prompts of a category key in registration order, none for a key that
    the library lacks. *)
Definition prompts_of (lib : PromptLibrary) (category : string) : list (string * string) :=
  match own_property lib category with
  | Some categoryPrompts => categoryPrompts
  | None => []
  end.

Definition category_blocks (lib : PromptLibrary) (category : string) : list string :=
  map (fun prompt => prompt_block category (fst prompt) (snd prompt))
      (prompts_of lib category).

Definition category_included (lib : PromptLibrary) (category : string)
  : list (string * string) :=
  map (fun prompt => (category, fst prompt)) (prompts_of lib category).

(** The separator in force. *)
Definition separator_of (separator : option string) : string :=
  match separator with
  | Some s => s
  | None => default_separator
  end.

(** The category keys a search visits. *)
Definition search_categories (lib : PromptLibrary)
    (categories : option (list PromptCategory)) : list string :=
  match categories with
  | Some cs => map category_key cs
  | None => Object_keys lib
  end.

(** The matching rule of [search_prompts] for one prompt. *)
Definition entry_matches (keyword : string) (entry : string * string) : bool :=
  includes (toLowerCase (snd entry)) (toLowerCase keyword)
  || includes (toLowerCase (fst entry)) (toLowerCase keyword).

(** What one prompt adds to [searchResults]. *)
Definition entry_result (host : RegExpHost) (keyword category : string)
    (entry : string * string) : Completion (list SearchMatch) :=
  if entry_matches keyword entry
  then
    bindE (global_match_count host (toLowerCase keyword) (toLowerCase (snd entry)))
      (fun occurrences =>
         ok [ {| match_category := category; match_name := fst entry;
                 match_content := snd entry;
                 match_relevance :=
                   (if includes (toLowerCase (fst entry)) (toLowerCase keyword)
                    then 10 else 0) + occurrences |} ])
  else ok [].

(** Running [g] over [xs] in order and appending what it yields, up to the
    first error. *)
Fixpoint collect {A B : Type} (g : A -> Completion (list B)) (xs : list A) : Completion (list B) :=
  match xs with
  | [] => ok []
  | x :: xs' =>
      bindE (g x) (fun l => bindE (collect g xs') (fun r => ok (l ++ r)%list))
  end.

Definition category_result (host : RegExpHost) (lib : PromptLibrary)
    (keyword category : string) : Completion (list SearchMatch) :=
  collect (entry_result host keyword category) (prompts_of lib category).

(** The prompts in the order a search over [categories] meets them:
    category by category, each in registration order. *)
Definition searched (lib : PromptLibrary) (categories : list string)
  : list (string * (string * string)) :=
  flat_map (fun category => map (pair category) (prompts_of lib category)) categories.

(** A keyword without syntax characters, and the pattern it denotes. *)
Fixpoint plain (k : string) : bool :=
  match k with
  | EmptyString => true
  | String c t => negb (is_syntax_character c) && plain t
  end.

Fixpoint atoms_of (k : string) : list Atom :=
  match k with
  | EmptyString => []
  | String c t => PatternCharacter c :: atoms_of t
  end.

Fixpoint drop (n : nat) (s : string) : string :=
  match n, s with
  | 0, _ => s
  | S _, EmptyString => EmptyString
  | S n', String _ t => drop n' t
  end.

(** Occurrences of a non-empty [k] in [s] that do not overlap, taken from
    the left: an occurrence at the current index counts and the search resumes
    behind it. *)
Fixpoint occurrences_within (fuel : nat) (k s : string) : nat :=
  match fuel with
  | 0 => 0
  | S fuel' =>
      match s with
      | EmptyString => 0
      | String _ t =>
          if prefix k s
          then S (occurrences_within fuel' k (drop (String.length k) s))
          else occurrences_within fuel' k t
      end
  end.

Definition count_occurrences (k s : string) : nat :=
  occurrences_within (String.length s) k s.

(** The relevance the specification gives a matched prompt. *)
Definition specified_relevance (keyword name content : string) : nat :=
  (if includes (toLowerCase name) (toLowerCase keyword) then 10 else 0)
  + count_occurrences (toLowerCase keyword) (toLowerCase content).

(** An agent whose [loadPrompts] failed with [error]. *)
Definition agent_after_failed_load (error : Thrown) : PromptLibraryMCP :=
  snd (init_from (throw error) new_agent).

(** The agents that serve requests: [init] has run on a new agent, and its
    [loadPrompts] has built the library or has failed. *)
Inductive initialized : PromptLibraryMCP -> Prop :=
| initialized_loaded : initialized agent
| initialized_failed (error : Thrown) : initialized (agent_after_failed_load error).

(** The tool calls an agent serves. *)
Inductive ToolCall : Type :=
| call_get_categories
| call_get_prompts_by_category (category : PromptCategory)
| call_get_prompt (category : PromptCategory) (name : string)
| call_combine_prompts (categories : list PromptCategory) (separator : option string)
| call_search_prompts (keyword : string) (categories : option (list PromptCategory)).

Definition serve (host : RegExpHost) (call : ToolCall) : Handler ToolResult :=
  match call with
  | call_get_categories => get_categories
  | call_get_prompts_by_category category => get_prompts_by_category category
  | call_get_prompt category name => get_prompt category name
  | call_combine_prompts categories separator => combine_prompts categories separator
  | call_search_prompts keyword categories => search_prompts host keyword categories
  end.

(** Where a match was met: its category, name and text. *)
Definition discovery (m : SearchMatch) : string * (string * string) :=
  (match_category m, (match_name m, match_content m)).

(** Orders of search hits. *)
Definition relevance_descends (a b : SearchHit) : Prop :=
  hit_relevance b <= hit_relevance a.

Definition with_relevance (v : nat) (h : SearchHit) : bool :=
  (hit_relevance h =? v)%nat.

(** ** Further notions *)

(** [k] occurs in [s] as a run of consecutive code units. *)
Definition occurs (k s : string) : Prop :=
  exists before after, s = before ++ k ++ after.

(** The [count] field of a prompt list, none for any other answer. *)
Definition listed_count (r : ToolResult) : nat :=
  match r with
  | PromptList _ _ count => count
  | _ => 0
  end.

(** Code units of [s] that are not line terminators. *)
Fixpoint count_non_terminators (s : string) : nat :=
  match s with
  | EmptyString => 0
  | String c t => (if line_terminator c then 0 else 1) + count_non_terminators t
  end.

(** The length of the block of a prompt: the two header lines take 25 code
    units besides the category key and the name. *)
Definition block_size (d : string * (string * string)) : nat :=
  25 + String.length (fst d) + String.length (fst (snd d))
  + String.length (snd (snd d)).

(** Two answers of [search_prompts] that differ at most in the keyword they
    echo. *)
Definition same_search (r1 r2 : ToolResult) : Prop :=
  match r1, r2 with
  | SearchResults o1, SearchResults o2 =>
      results o1 = results o2 /\ total_found o1 = total_found o2
  | Fault c1 e1, Fault c2 e2 => c1 = c2 /\ e1 = e2
  | _, _ => False
  end.

(** The snippet of a text as specified: the text itself when it has 200
    code units or fewer, its first 200 followed by three dots otherwise. *)
Definition specified_snippet (content : string) : string :=
  if (String.length content <=? 200)%nat then content
  else substring 0 200 content ++ "...".

(** The category, the name and the snippet of a hit. *)
Definition hit_shown (h : SearchHit) : string * string * string :=
  (hit_category h, hit_name h, hit_snippet h).

(** The category and the name of a hit. *)
Definition hit_key (h : SearchHit) : string * string :=
  (hit_category h, hit_name h).

(** * Properties *)

(** Runs a tool callback on [this] down to the body of its [try] block. *)
Ltac run_tool tool := unfold tool, bind, this_promptLibrary, ret; simpl.

(** ** Objects *)

Lemma existsb_eqb_In (k : string) (ks : list string) :
  existsb (String.eqb k) ks = true <-> In k ks.
Proof.
  rewrite existsb_exists. split.
  - intros [x [Hin Heq]]. apply String.eqb_eq in Heq. now subst.
  - intros Hin. exists k. split; [assumption | apply String.eqb_refl].
Qed.

Lemma own_property_In {A : Type} (o : Obj A) (k : string) (v : A) :
  own_property o k = Some v -> In (k, v) o.
Proof.
  induction o as [| [k' v'] o' IH]; simpl; [discriminate |].
  destruct (String.eqb k k') eqn:E.
  - apply String.eqb_eq in E. intros [= ->]. subst. now left.
  - intros H. right. now apply IH.
Qed.

Lemma In_own_property {A : Type} (o : Obj A) (k : string) (v : A) :
  distinct (Object_keys o) = true -> In (k, v) o -> own_property o k = Some v.
Proof.
  induction o as [| [k' v'] o' IH]; simpl; [contradiction |].
  intros Hd [Heq | Hin].
  - injection Heq as -> ->. now rewrite String.eqb_refl.
  - apply andb_prop in Hd as [Hfresh Hd].
    destruct (String.eqb k k') eqn:E.
    + apply String.eqb_eq in E. subst k'.
      apply negb_true_iff in Hfresh.
      assert (Hk : In k (Object_keys o')) by (apply (in_map fst _ _ Hin)).
      apply existsb_eqb_In in Hk. congruence.
    + now apply IH.
Qed.

Lemma own_property_none_keys {A : Type} (o : Obj A) (k : string) :
  own_property o k = None <-> ~ In k (Object_keys o).
Proof.
  induction o as [| [k' v'] o' IH]; simpl.
  - tauto.
  - destruct (String.eqb k k') eqn:E.
    + apply String.eqb_eq in E. subst. split; [discriminate | tauto].
    + apply String.eqb_neq in E. rewrite IH. split.
      * intros Hn [Heq | Hin]; [now apply E | now apply Hn].
      * tauto.
Qed.

Lemma Get_own_keys (o : Obj string) :
  distinct (Object_keys o) = true ->
  map (fun name => (name, Get o name)) (Object_keys o)
  = map (fun p => (fst p, Str (snd p))) o.
Proof.
  intros Hd. unfold Object_keys. rewrite map_map.
  apply map_ext_in. intros [k v] Hin. simpl.
  unfold Get. now rewrite (In_own_property o k v Hd Hin).
Qed.

Lemma category_key_not_inherited (category : PromptCategory) :
  inherited (category_key category) = false.
Proof. destruct category; reflexivity. Qed.

Lemma well_formed_category (lib : PromptLibrary) (k : string) (prompts : Obj string) :
  well_formed lib = true -> own_property lib k = Some prompts ->
  distinct (Object_keys prompts) = true.
Proof.
  unfold well_formed. intros Hwf Hown.
  apply andb_prop in Hwf as [_ Hall].
  rewrite forallb_forall in Hall.
  specialize (Hall (k, prompts) (own_property_In _ _ _ Hown)).
  unfold keys_in_order in Hall. now apply andb_prop in Hall as [Hd _].
Qed.

Lemma texts_nonempty_prompt (lib : PromptLibrary) (k name text : string)
    (prompts : Obj string) :
  texts_nonempty lib = true -> own_property lib k = Some prompts ->
  In (name, text) prompts -> text <> "".
Proof.
  unfold texts_nonempty. intros Hne Hown Hin.
  rewrite forallb_forall in Hne.
  specialize (Hne (k, prompts) (own_property_In _ _ _ Hown)). simpl in Hne.
  rewrite forallb_forall in Hne.
  specialize (Hne (name, text) Hin). simpl in Hne.
  apply negb_true_iff in Hne. now apply String.eqb_neq.
Qed.

(** ** The loaded library *)

Lemma agent_promptLibrary : promptLibrary agent = promptLiteral.
Proof. reflexivity. Qed.

Lemma promptLiteral_well_formed : well_formed promptLiteral = true.
Proof. vm_compute. reflexivity. Qed.

Lemma promptLiteral_texts_nonempty : texts_nonempty promptLiteral = true.
Proof. vm_compute. reflexivity. Qed.

Lemma promptLiteral_registered (category : PromptCategory) :
  registered promptLiteral category = true.
Proof. destruct category; reflexivity. Qed.

(** ** [get_prompt] *)

Lemma get_prompt_missing_category (this : PromptLibraryMCP)
    (category : PromptCategory) (name : string) :
  own_property (promptLibrary this) (category_key category) = None ->
  fst (get_prompt category name this) = CategoryNotFound (category_key category).
Proof.
  intros Hown. run_tool get_prompt.
  now rewrite Hown.
Qed.

(** A name that is neither a prompt of the category nor a property of
    [Object.prototype] is reported as not found. *)
Lemma get_prompt_unknown_name (this : PromptLibraryMCP)
    (category : PromptCategory) (prompts : Obj string) (name : string) :
  own_property (promptLibrary this) (category_key category) = Some prompts ->
  own_property prompts name = None ->
  inherited name = false ->
  fst (get_prompt category name this) = PromptNotFound name (category_key category).
Proof.
  intros Hown Hname Hinh. run_tool get_prompt.
  rewrite Hown. unfold Get. now rewrite Hname, Hinh.
Qed.

(** A registered name with a non-empty text yields that text. *)
Lemma get_prompt_registered_name (this : PromptLibraryMCP)
    (category : PromptCategory) (prompts : Obj string) (name text : string) :
  own_property (promptLibrary this) (category_key category) = Some prompts ->
  own_property prompts name = Some text ->
  text <> "" ->
  fst (get_prompt category name this) = PromptText (Str text).
Proof.
  intros Hown Hname Hne. run_tool get_prompt.
  rewrite Hown. unfold Get. rewrite Hname. simpl.
  apply String.eqb_neq in Hne. now rewrite Hne.
Qed.

(** A name that [Object.prototype] defines and the category does not is
    found through the prototype and returned as if it were a prompt. *)
Lemma get_prompt_inherited (this : PromptLibraryMCP)
    (category : PromptCategory) (prompts : Obj string) (name : string) :
  own_property (promptLibrary this) (category_key category) = Some prompts ->
  own_property prompts name = None ->
  inherited name = true ->
  fst (get_prompt category name this) = PromptText (PrototypeMember name).
Proof.
  intros Hown Hname Hinh. run_tool get_prompt.
  rewrite Hown. unfold Get. now rewrite Hname, Hinh.
Qed.

(** C1, at the input on which the code departs from it: [toString] is not a
    prompt of the category [react], yet [get_prompt] does not report it as
    not found; it returns the function inherited from [Object.prototype] in
    the payload of a found prompt. *)
Theorem get_prompt_toString_returns_prototype_member :
  own_property (prompts_of (promptLibrary agent) (category_key react)) "toString" = None
  /\ fst (get_prompt react "toString" agent) = PromptText (PrototypeMember "toString")
  /\ fst (get_prompt react "toString" agent) <> PromptNotFound "toString" (category_key react).
Proof.
  split; [reflexivity |]. split; [reflexivity |]. discriminate.
Qed.

(** ** [get_prompts_by_category] *)

(** In a well-formed library without empty texts, [get_prompts_by_category]
    lists the prompts of a registered category as name and text, in
    registration order, with their number, and [get_prompt] returns for each
    listed name the text that was listed. *)
Lemma get_prompts_by_category_lists_prompts (this : PromptLibraryMCP)
    (category : PromptCategory) (prompts : Obj string) :
  well_formed (promptLibrary this) = true ->
  texts_nonempty (promptLibrary this) = true ->
  own_property (promptLibrary this) (category_key category) = Some prompts ->
  fst (get_prompts_by_category category this)
  = PromptList (category_key category)
      (map (fun p => (fst p, Str (snd p))) prompts) (List.length prompts)
  /\ forall name text,
       In (name, Str text) (map (fun p => (fst p, Str (snd p))) prompts) ->
       fst (get_prompt category name this) = PromptText (Str text).
Proof.
  intros Hwf Hne Hown.
  pose proof (well_formed_category _ _ _ Hwf Hown) as Hd.
  split.
  - run_tool get_prompts_by_category.
    rewrite Hown. simpl. rewrite (Get_own_keys prompts Hd).
    now rewrite length_map.
  - intros name text Hin.
    apply in_map_iff in Hin as [[n t] [Heq Hin]]. simpl in Heq.
    injection Heq as -> ->.
    apply (get_prompt_registered_name this category prompts name text Hown).
    + now apply In_own_property.
    + now apply (texts_nonempty_prompt _ _ _ _ _ Hne Hown Hin).
Qed.

Lemma initialized_library (this : PromptLibraryMCP) :
  initialized this ->
  well_formed (promptLibrary this) = true /\ texts_nonempty (promptLibrary this) = true.
Proof.
  intros [| error]; split;
    first [ exact promptLiteral_well_formed
          | exact promptLiteral_texts_nonempty
          | reflexivity ].
Qed.

(** C4: on an initialized agent, [get_prompts_by_category] for a registered
    category returns the prompts registered under it as name and text, in
    registration order, with their number, and for each returned pair
    [get_prompt] on the category and the name returns that same text. *)
Theorem get_prompts_by_category_agrees_with_get_prompt :
  forall (this : PromptLibraryMCP) (category : PromptCategory) (prompts : Obj string),
    initialized this ->
    own_property (promptLibrary this) (category_key category) = Some prompts ->
    fst (get_prompts_by_category category this)
    = PromptList (category_key category)
        (map (fun p => (fst p, Str (snd p))) prompts) (List.length prompts)
    /\ forall name text,
         In (name, Str text) (map (fun p => (fst p, Str (snd p))) prompts) ->
         fst (get_prompt category name this) = PromptText (Str text).
Proof.
  intros this category prompts Hinit Hown.
  destruct (initialized_library this Hinit) as [Hwf Hne].
  now apply get_prompts_by_category_lists_prompts.
Qed.

Lemma get_prompts_by_category_agrees_with_get_prompt_witness :
  initialized agent
  /\ own_property (promptLibrary agent) (category_key fe)
     = Some [ ("performance-optimization", performanceOptimizationPrompt);
              ("accessibility", accessibilityPrompt) ]
  /\ fst (get_prompts_by_category fe agent)
     = PromptList "fe"
         [ ("performance-optimization", Str performanceOptimizationPrompt);
           ("accessibility", Str accessibilityPrompt) ] 2
  /\ fst (get_prompt fe "accessibility" agent) = PromptText (Str accessibilityPrompt).
Proof.
  pose proof (get_prompts_by_category_agrees_with_get_prompt agent fe
                [ ("performance-optimization", performanceOptimizationPrompt);
                  ("accessibility", accessibilityPrompt) ]
                initialized_loaded eq_refl)
    as [Hlist Hget].
  split; [exact initialized_loaded |].
  split; [reflexivity |].
  split; [exact Hlist |].
  apply Hget. simpl. right. left. reflexivity.
Defined.

(** ** State *)

(** C10: a tool call returns the agent as it found it, both fields
    included, and a second call with the same arguments returns the same
    payload as the first. *)
Theorem tool_calls_leave_agent_unchanged :
  forall (host : RegExpHost) (call : ToolCall) (this : PromptLibraryMCP),
    snd (serve host call this) = this
    /\ fst (serve host call (snd (serve host call this))) = fst (serve host call this).
Proof.
  intros host call this. destruct call; split; reflexivity.
Qed.

(** ** [combine_prompts]: the two arrays *)

Lemma fold_combine_entry (category : string) (entries : list (string * string))
    (blocks : list string) (names : list (string * string)) :
  fold_left (combine_entry category) entries (blocks, names)
  = ((blocks ++ map (fun p => prompt_block category (fst p) (snd p)) entries)%list,
     (names ++ map (fun p => (category, fst p)) entries)%list).
Proof.
  revert blocks names.
  induction entries as [| [name content] entries IH]; intros blocks names; simpl.
  - now rewrite !app_nil_r.
  - rewrite IH, <- !app_assoc. reflexivity.
Qed.

Lemma fold_combine_category (lib : PromptLibrary) (categories : list string)
    (blocks : list string) (names : list (string * string)) :
  fold_left (combine_category lib) categories (blocks, names)
  = ((blocks ++ flat_map (category_blocks lib) categories)%list,
     (names ++ flat_map (category_included lib) categories)%list).
Proof.
  revert blocks names.
  induction categories as [| category categories IH]; intros blocks names; simpl.
  - now rewrite !app_nil_r.
  - unfold combine_category at 2, category_blocks, category_included, prompts_of.
    destruct (own_property lib category) as [prompts |].
    + unfold Object_entries. rewrite fold_combine_entry, IH, <- !app_assoc.
      reflexivity.
    + simpl. apply IH.
Qed.

(** What [combine_prompts] returns, in terms of the blocks of the requested
    categories. *)
Lemma combine_prompts_blocks (this : PromptLibraryMCP)
    (categories : list PromptCategory) (separator : option string) :
  fst (combine_prompts categories separator this)
  = match flat_map (category_blocks (promptLibrary this)) (map category_key categories) with
    | [] => NoPromptsFound
    | (_ :: _) as blocks =>
        Combined
          {| combined_prompt := Array_join blocks (separator_of separator);
             included_prompts :=
               flat_map (category_included (promptLibrary this))
                        (map category_key categories);
             total_prompts := List.length blocks;
             categories_processed := map category_key categories |}
    end.
Proof.
  run_tool combine_prompts.
  rewrite fold_combine_category. simpl.
  destruct (flat_map _ _); reflexivity.
Qed.

Lemma category_blocks_unregistered (lib : PromptLibrary) (category : PromptCategory) :
  registered lib category = false ->
  category_blocks lib (category_key category) = []
  /\ category_included lib (category_key category) = [].
Proof.
  unfold registered, category_blocks, category_included, prompts_of.
  destruct (own_property lib (category_key category)); [discriminate | auto].
Qed.

Lemma flat_map_registered {B : Type} (lib : PromptLibrary)
    (f : string -> list B) (categories : list PromptCategory) :
  (forall category, registered lib category = false -> f (category_key category) = []) ->
  flat_map f (map category_key (filter (registered lib) categories))
  = flat_map f (map category_key categories).
Proof.
  intros Hskip. induction categories as [| category categories IH]; simpl.
  - reflexivity.
  - destruct (registered lib category) eqn:E; simpl.
    + now rewrite IH.
    + now rewrite (Hskip category E).
Qed.

Lemma for_of_search_empty (host : RegExpHost) (keyword : string)
    (categories : list string) (found : list SearchMatch) :
  for_of categories (search_category host [] keyword) found = ok found.
Proof.
  induction categories as [| category categories IH]; simpl; [reflexivity |].
  exact IH.
Qed.

(** ** [loadPrompts] that fails *)

(** C3 as amended: when [loadPrompts] fails the library is the empty object,
    and on it [get_prompts_by_category] and [get_prompt] report the category
    as not found, [get_categories] returns no category, [combine_prompts]
    reports that no prompts were found, and [search_prompts] returns an empty
    result list with a total of zero; no call ends in a catch block. *)
Theorem tool_calls_after_failed_load :
  forall (host : RegExpHost) (error : Thrown),
    let this := agent_after_failed_load error in
    promptLibrary this = []
    /\ fst (get_categories this) = Categories []
    /\ (forall category,
          fst (get_prompts_by_category category this)
          = CategoryNotFound (category_key category))
    /\ (forall category name,
          fst (get_prompt category name this) = CategoryNotFound (category_key category))
    /\ (forall categories separator,
          fst (combine_prompts categories separator this) = NoPromptsFound)
    /\ (forall keyword categories,
          fst (search_prompts host keyword categories this)
          = SearchResults {| search_keyword := keyword; results := [];
                             total_found := 0 |})
    /\ (forall call context thrown,
          fst (serve host call this) <> Fault context thrown).
Proof.
  intros host error this.
  assert (Hcombine : forall categories separator,
             fst (combine_prompts categories separator this) = NoPromptsFound).
  { intros categories separator. rewrite combine_prompts_blocks.
    replace (flat_map (category_blocks (promptLibrary this))
                      (map category_key categories)) with (@nil string);
      [reflexivity |].
    induction categories as [| c cs IH]; simpl; [reflexivity | exact IH]. }
  assert (Hsearch : forall keyword categories,
             fst (search_prompts host keyword categories this)
             = SearchResults {| search_keyword := keyword; results := [];
                                total_found := 0 |}).
  { intros keyword categories.
    run_tool search_prompts.
    destruct categories as [cs |]; simpl; [| reflexivity].
    now rewrite for_of_search_empty. }
  repeat split; try reflexivity; try assumption.
  intros call context thrown. destruct call; cbn [serve].
  - discriminate.
  - discriminate.
  - discriminate.
  - rewrite Hcombine. discriminate.
  - rewrite Hsearch. discriminate.
Qed.

(** C3 as stated fails: after a failed [loadPrompts], [get_categories]
    answers with the empty list of categories, which is not the report that a
    category was not found. *)
Lemma failed_load_get_categories_not_category_not_found :
  promptLibrary (agent_after_failed_load (OtherError "load")) = []
  /\ fst (get_categories (agent_after_failed_load (OtherError "load"))) = Categories []
  /\ ~ (exists category,
          fst (get_categories (agent_after_failed_load (OtherError "load")))
          = CategoryNotFound category).
Proof.
  split; [reflexivity |]. split; [reflexivity |].
  intros [category H]. discriminate H.
Qed.

(** ** [combine_prompts]: the combined text *)

Lemma append_assoc (a b c : string) : (a ++ b) ++ c = a ++ (b ++ c).
Proof.
  induction a as [| x a IH]; simpl; [reflexivity | now rewrite IH].
Qed.

Lemma Array_join_app (xs ys : list string) (sep : string) :
  xs <> [] -> ys <> [] ->
  Array_join (xs ++ ys) sep = Array_join xs sep ++ sep ++ Array_join ys sep.
Proof.
  intros Hxs Hys. induction xs as [| x xs IH]; [contradiction |].
  destruct xs as [| x' xs].
  - simpl. destruct ys; [contradiction | reflexivity].
  - change (Array_join ((x :: x' :: xs) ++ ys) sep)
      with (x ++ sep ++ Array_join ((x' :: xs) ++ ys) sep).
    rewrite IH by discriminate.
    change (Array_join (x :: x' :: xs) sep)
      with (x ++ sep ++ Array_join (x' :: xs) sep).
    now rewrite !append_assoc.
Qed.

(** The text ends with the last block: no separator follows it. *)
Lemma Array_join_last (xs : list string) (x sep : string) :
  xs <> [] ->
  Array_join (xs ++ [x]) sep = Array_join xs sep ++ sep ++ x.
Proof.
  intros Hxs. now rewrite Array_join_app by (assumption || discriminate).
Qed.

Lemma category_blocks_registered (lib : PromptLibrary) (category : string)
    (prompts : Obj string) :
  own_property lib category = Some prompts ->
  category_blocks lib category
  = map (fun p => prompt_block category (fst p) (snd p)) prompts.
Proof.
  intros H. unfold category_blocks, prompts_of. now rewrite H.
Qed.

(** C5: for two registered categories that each hold a prompt, the text
    combined for the two in sequence is the text combined for the first, the
    separator, and the text combined for the second; it is the join of all
    blocks by the separator and ends with the last block. *)
Theorem combine_prompts_of_two_categories :
  forall (this : PromptLibraryMCP) (c1 c2 : PromptCategory)
         (separator : option string) (p1 p2 : Obj string),
    own_property (promptLibrary this) (category_key c1) = Some p1 -> p1 <> [] ->
    own_property (promptLibrary this) (category_key c2) = Some p2 -> p2 <> [] ->
    exists r1 r2 r12,
      fst (combine_prompts [c1] separator this) = Combined r1
      /\ fst (combine_prompts [c2] separator this) = Combined r2
      /\ fst (combine_prompts [c1; c2] separator this) = Combined r12
      /\ combined_prompt r12
         = combined_prompt r1 ++ separator_of separator ++ combined_prompt r2
      /\ combined_prompt r12
         = Array_join (category_blocks (promptLibrary this) (category_key c1)
                       ++ category_blocks (promptLibrary this) (category_key c2))
                      (separator_of separator)
      /\ exists front last,
           (category_blocks (promptLibrary this) (category_key c1)
            ++ category_blocks (promptLibrary this) (category_key c2))%list
           = (front ++ [last])%list
           /\ combined_prompt r12
              = Array_join front (separator_of separator)
                ++ separator_of separator ++ last.
Proof.
  intros this c1 c2 separator p1 p2 H1 Hp1 H2 Hp2.
  set (lib := promptLibrary this).
  set (sep := separator_of separator).
  assert (Hb1 : category_blocks lib (category_key c1) <> []).
  { unfold lib. rewrite (category_blocks_registered _ _ _ H1).
    destruct p1; [contradiction | discriminate]. }
  assert (Hb2 : category_blocks lib (category_key c2) <> []).
  { unfold lib. rewrite (category_blocks_registered _ _ _ H2).
    destruct p2; [contradiction | discriminate]. }
  pose proof (combine_prompts_blocks this [c1] separator) as E1.
  pose proof (combine_prompts_blocks this [c2] separator) as E2.
  pose proof (combine_prompts_blocks this [c1; c2] separator) as E12.
  cbn [map flat_map] in E1, E2, E12. rewrite app_nil_r in E1, E2, E12.
  fold lib in E1, E2, E12. fold sep in E1, E2, E12.
  destruct (category_blocks lib (category_key c1)) as [| b1 bs1] eqn:B1;
    [contradiction |].
  destruct (category_blocks lib (category_key c2)) as [| b2 bs2] eqn:B2;
    [contradiction |].
  cbn [app] in E12.
  eexists. eexists. eexists.
  split; [exact E1 |]. split; [exact E2 |]. split; [exact E12 |].
  cbn [combined_prompt].
  split; [| split].
  - change (b1 :: (bs1 ++ b2 :: bs2)%list) with ((b1 :: bs1) ++ (b2 :: bs2))%list.
    apply Array_join_app; discriminate.
  - reflexivity.
  - destruct (exists_last (l := b2 :: bs2)) as [front2 [last Hlast]];
      [discriminate |].
    exists ((b1 :: bs1) ++ front2)%list, last. split.
    + rewrite Hlast. now rewrite app_assoc.
    + change (b1 :: (bs1 ++ b2 :: bs2)%list) with ((b1 :: bs1) ++ (b2 :: bs2))%list.
      rewrite Hlast, app_assoc. apply Array_join_last.
      discriminate.
Qed.

Lemma combine_prompts_of_two_categories_witness :
  exists r1 r2 r12,
    fst (combine_prompts [react] None agent) = Combined r1
    /\ fst (combine_prompts [common] None agent) = Combined r2
    /\ fst (combine_prompts [react; common] None agent) = Combined r12
    /\ combined_prompt r12
       = combined_prompt r1 ++ default_separator ++ combined_prompt r2.
Proof.
  destruct (combine_prompts_of_two_categories agent react common None
              [ ("component-creation", componentCreationPrompt);
                ("state-management", stateManagementPrompt) ]
              [ ("code-quality", codeQualityPrompt) ]
              eq_refl ltac:(discriminate) eq_refl ltac:(discriminate))
    as [r1 [r2 [r12 [E1 [E2 [E12 [Etext _]]]]]]].
  exists r1, r2, r12. repeat split; assumption.
Defined.

(** C8: [combine_prompts] answers from the registered categories among
    those requested, the others adding neither block nor error; without any
    block it answers that no prompts were found, and otherwise with the join
    of at least one block.  No block arises from an empty request, from a
    request of unregistered categories only, or from an empty library. *)
Theorem combine_prompts_skips_unregistered_categories :
  forall (this : PromptLibraryMCP) (categories : list PromptCategory)
         (separator : option string),
    let lib := promptLibrary this in
    let present := map category_key (filter (registered lib) categories) in
    (fst (combine_prompts categories separator this)
     = match flat_map (category_blocks lib) present with
       | [] => NoPromptsFound
       | (_ :: _) as blocks =>
           Combined
             {| combined_prompt := Array_join blocks (separator_of separator);
                included_prompts := flat_map (category_included lib) present;
                total_prompts := List.length blocks;
                categories_processed := map category_key categories |}
       end)
    /\ (categories = [] ->
        fst (combine_prompts categories separator this) = NoPromptsFound)
    /\ (Forall (fun category => registered lib category = false) categories ->
        fst (combine_prompts categories separator this) = NoPromptsFound)
    /\ (lib = [] ->
        fst (combine_prompts categories separator this) = NoPromptsFound).
Proof.
  intros this categories separator lib present.
  assert (Hmain : fst (combine_prompts categories separator this)
     = match flat_map (category_blocks lib) present with
       | [] => NoPromptsFound
       | (_ :: _) as blocks =>
           Combined
             {| combined_prompt := Array_join blocks (separator_of separator);
                included_prompts := flat_map (category_included lib) present;
                total_prompts := List.length blocks;
                categories_processed := map category_key categories |}
       end).
  { rewrite combine_prompts_blocks. fold lib. unfold present.
    rewrite (flat_map_registered lib (category_blocks lib))
      by (intros category E; now apply category_blocks_unregistered).
    rewrite (flat_map_registered lib (category_included lib))
      by (intros category E; now apply category_blocks_unregistered).
    reflexivity. }
  assert (Hnone : Forall (fun category => registered lib category = false) categories ->
                  fst (combine_prompts categories separator this) = NoPromptsFound).
  { intros Hall. rewrite Hmain. unfold present.
    replace (filter (registered lib) categories) with (@nil PromptCategory);
      [reflexivity |].
    symmetry. clear Hmain. induction Hall as [| c cs Hc _ IH]; cbn [filter];
      [reflexivity |].
    rewrite Hc. exact IH. }
  split; [exact Hmain |]. split; [| split].
  - intros ->. reflexivity.
  - exact Hnone.
  - intros Hlib. apply Hnone. apply Forall_forall. intros c _.
    unfold registered. now rewrite Hlib.
Qed.

(** ** Sorting *)

Section SortByKey.
Context {A : Type} (key : A -> nat) (comparefn_pos : A -> A -> bool).
Hypothesis comparefn_key : forall a b, comparefn_pos a b = (key a <? key b)%nat.

Let descends (a b : A) : Prop := key b <= key a.

Lemma sort_insert_perm (x : A) (l : list A) :
  Permutation (sort_insert comparefn_pos x l) (x :: l).
Proof.
  induction l as [| y l IH]; simpl.
  - apply Permutation_refl.
  - destruct (comparefn_pos x y).
    + apply perm_trans with (y :: x :: l).
      * now apply perm_skip.
      * apply perm_swap.
    + apply Permutation_refl.
Qed.

Lemma Array_sort_perm (l : list A) : Permutation (Array_sort comparefn_pos l) l.
Proof.
  induction l as [| x l IH]; simpl.
  - apply perm_nil.
  - apply perm_trans with (x :: Array_sort comparefn_pos l).
    + apply sort_insert_perm.
    + now apply perm_skip.
Qed.

Lemma sort_insert_sorted (x : A) (l : list A) :
  StronglySorted descends l -> StronglySorted descends (sort_insert comparefn_pos x l).
Proof.
  induction l as [| y l IH]; intros Hs; simpl.
  - constructor; constructor.
  - inversion Hs as [| y' l' Hl Hy]; subst.
    rewrite comparefn_key. destruct (key x <? key y)%nat eqn:E.
    + apply Nat.ltb_lt in E. constructor.
      * now apply IH.
      * apply (Permutation_Forall (Permutation_sym (sort_insert_perm x l))).
        constructor; [unfold descends; lia | assumption].
    + apply Nat.ltb_ge in E. constructor; [assumption |].
      constructor; [exact E |].
      eapply Forall_impl; [| exact Hy].
      unfold descends. intros z Hz. lia.
Qed.

Lemma Array_sort_sorted (l : list A) :
  StronglySorted descends (Array_sort comparefn_pos l).
Proof.
  induction l as [| x l IH]; simpl.
  - constructor.
  - now apply sort_insert_sorted.
Qed.

Lemma sort_insert_stable (v : nat) (x : A) (l : list A) :
  filter (fun a => (key a =? v)%nat) (sort_insert comparefn_pos x l)
  = filter (fun a => (key a =? v)%nat) (x :: l).
Proof.
  induction l as [| y l IH]; simpl; [reflexivity |].
  rewrite comparefn_key. destruct (key x <? key y)%nat eqn:E; [| reflexivity].
  apply Nat.ltb_lt in E. simpl. rewrite IH. simpl.
  destruct (key y =? v)%nat eqn:Ey, (key x =? v)%nat eqn:Ex; try reflexivity.
  apply Nat.eqb_eq in Ey, Ex. lia.
Qed.

Lemma Array_sort_stable (v : nat) (l : list A) :
  filter (fun a => (key a =? v)%nat) (Array_sort comparefn_pos l)
  = filter (fun a => (key a =? v)%nat) l.
Proof.
  induction l as [| x l IH]; simpl; [reflexivity |].
  rewrite sort_insert_stable. simpl. now rewrite IH.
Qed.
End SortByKey.

Lemma by_relevance_pos (a b : SearchMatch) :
  (0 <? by_relevance a b)%Z = (match_relevance a <? match_relevance b)%nat.
Proof.
  unfold by_relevance.
  destruct (match_relevance a <? match_relevance b)%nat eqn:E.
  - apply Nat.ltb_lt in E. apply Z.ltb_lt. lia.
  - apply Nat.ltb_ge in E. apply Z.ltb_ge. lia.
Qed.

Lemma StronglySorted_map {A B : Type} (R : A -> A -> Prop) (Q : B -> B -> Prop)
    (f : A -> B) (l : list A) :
  (forall a b, R a b -> Q (f a) (f b)) ->
  StronglySorted R l -> StronglySorted Q (map f l).
Proof.
  intros HRQ Hs. induction Hs as [| a l Hl IH Ha]; simpl; constructor.
  - exact IH.
  - apply Forall_map. eapply Forall_impl; [| exact Ha]. intros b. apply HRQ.
Qed.

(** ** The search loop *)

Lemma bindE_ok {A : Type} (m : Completion A) : bindE m (fun a => ok a) = m.
Proof. destruct m; reflexivity. Qed.

Lemma for_of_collect {A B : Type} (g : A -> Completion (list B))
    (body : A -> list B -> Completion (list B)) :
  (forall x s, body x s = bindE (g x) (fun l => ok (s ++ l)%list)) ->
  forall xs s,
    for_of xs body s = bindE (collect g xs) (fun l => ok (s ++ l)%list).
Proof.
  intros Hbody xs. induction xs as [| x xs IH]; intros s; simpl.
  - now rewrite app_nil_r.
  - rewrite Hbody. destruct (g x) as [e | l]; simpl; [reflexivity |].
    rewrite IH. destruct (collect g xs) as [e | r]; simpl; [reflexivity |].
    now rewrite app_assoc.
Qed.

Lemma collect_In {A B : Type} (g : A -> Completion (list B)) (xs : list A)
    (r : list B) (y : B) :
  collect g xs = ok r -> In y r ->
  exists x l, In x xs /\ g x = ok l /\ In y l.
Proof.
  revert r. induction xs as [| x xs IH]; intros r; simpl.
  - intros [= <-] [].
  - destruct (g x) as [e | l] eqn:Eg; simpl; [discriminate |].
    destruct (collect g xs) as [e | r'] eqn:Ec; simpl; [discriminate |].
    intros [= <-] Hin. apply in_app_or in Hin as [Hin | Hin].
    + exists x, l. auto.
    + destruct (IH r' eq_refl Hin) as [x' [l' [Hx [Hg Hy]]]].
      exists x', l'. auto.
Qed.

Lemma collect_flat_map {A B C : Type} (g : A -> Completion (list B))
    (f : B -> C) (h : A -> list C) (xs : list A) (r : list B) :
  (forall x l, g x = ok l -> map f l = h x) ->
  collect g xs = ok r -> map f r = flat_map h xs.
Proof.
  intros Hg. revert r. induction xs as [| x xs IH]; intros r; simpl.
  - now intros [= <-].
  - destruct (g x) as [e | l] eqn:Eg; simpl; [discriminate |].
    destruct (collect g xs) as [e | r'] eqn:Ec; simpl; [discriminate |].
    intros [= <-]. rewrite map_app, (Hg x l Eg), (IH r' eq_refl). reflexivity.
Qed.

Lemma collect_total {A B : Type} (g : A -> Completion (list B))
    (f : A -> list B) (xs : list A) :
  (forall x, In x xs -> g x = ok (f x)) -> collect g xs = ok (flat_map f xs).
Proof.
  induction xs as [| x xs IH]; intros Hg; simpl; [reflexivity |].
  rewrite (Hg x (or_introl eq_refl)). simpl.
  rewrite IH by (intros y Hy; apply Hg; now right). reflexivity.
Qed.

Lemma search_entry_result (host : RegExpHost) (keyword category : string)
    (entry : string * string) (found : list SearchMatch) :
  search_entry host keyword category entry found
  = bindE (entry_result host keyword category entry) (fun l => ok (found ++ l)%list).
Proof.
  unfold search_entry, entry_result, entry_matches. destruct entry as [name content].
  cbn [fst snd].
  destruct (includes (toLowerCase content) (toLowerCase keyword)
            || includes (toLowerCase name) (toLowerCase keyword)).
  - destruct (global_match_count host (toLowerCase keyword) (toLowerCase content));
      reflexivity.
  - simpl. now rewrite app_nil_r.
Qed.

Lemma search_category_result (host : RegExpHost) (lib : PromptLibrary)
    (keyword category : string) (found : list SearchMatch) :
  search_category host lib keyword category found
  = bindE (category_result host lib keyword category) (fun l => ok (found ++ l)%list).
Proof.
  unfold search_category, category_result, prompts_of, Object_entries.
  destruct (own_property lib category) as [prompts |].
  - apply for_of_collect. intros entry s. apply search_entry_result.
  - simpl. now rewrite app_nil_r.
Qed.

Lemma search_loop_collect (host : RegExpHost) (lib : PromptLibrary)
    (keyword : string) (categories : list string) :
  for_of categories (search_category host lib keyword) []
  = collect (category_result host lib keyword) categories.
Proof.
  rewrite (for_of_collect (category_result host lib keyword)).
  - apply bindE_ok.
  - intros category s. apply search_category_result.
Qed.

(** What [search_prompts] returns, in terms of the matches met. *)
Lemma search_prompts_collect (host : RegExpHost) (this : PromptLibraryMCP)
    (keyword : string) (categories : option (list PromptCategory)) :
  fst (search_prompts host keyword categories this)
  = match collect (category_result host (promptLibrary this) keyword)
            (search_categories (promptLibrary this) categories) with
    | inl error => Fault "Error searching prompts" error
    | inr found =>
        let sorted := Array_sort (fun a b => (0 <? by_relevance a b)%Z) found in
        SearchResults {| search_keyword := keyword;
                         results := map to_hit sorted;
                         total_found := List.length sorted |}
    end.
Proof.
  unfold search_prompts, bind, this_promptLibrary, ret. cbn [fst].
  fold (search_categories (promptLibrary this) categories).
  rewrite search_loop_collect.
  destruct (collect _ _); reflexivity.
Qed.

Lemma search_prompts_found (host : RegExpHost) (this : PromptLibraryMCP)
    (keyword : string) (categories : option (list PromptCategory))
    (output : SearchOutput) :
  fst (search_prompts host keyword categories this) = SearchResults output ->
  exists found,
    for_of (search_categories (promptLibrary this) categories)
           (search_category host (promptLibrary this) keyword) [] = ok found
    /\ collect (category_result host (promptLibrary this) keyword)
               (search_categories (promptLibrary this) categories) = ok found
    /\ results output
       = map to_hit (Array_sort (fun a b => (0 <? by_relevance a b)%Z) found)
    /\ total_found output = List.length found
    /\ search_keyword output = keyword.
Proof.
  rewrite search_prompts_collect, search_loop_collect.
  destruct (collect _ _) as [error | found]; [discriminate |].
  intros [= <-]. exists found. cbn [results total_found search_keyword].
  repeat split.
  apply Permutation_length, Array_sort_perm.
Qed.

(** Where a match comes from and how it is scored. *)
Lemma entry_result_In (host : RegExpHost) (keyword category : string)
    (entry : string * string) (l : list SearchMatch) (m : SearchMatch) :
  entry_result host keyword category entry = ok l -> In m l ->
  match_category m = category
  /\ (match_name m, match_content m) = entry
  /\ entry_matches keyword entry = true
  /\ exists occurrences,
       global_match_count host (toLowerCase keyword) (toLowerCase (match_content m))
       = ok occurrences
       /\ match_relevance m
          = (if includes (toLowerCase (match_name m)) (toLowerCase keyword)
             then 10 else 0) + occurrences.
Proof.
  unfold entry_result. destruct (entry_matches keyword entry) eqn:Em.
  - destruct (global_match_count host (toLowerCase keyword) (toLowerCase (snd entry)))
      as [e | n] eqn:Eg; simpl; [discriminate |].
    intros [= <-] [<- | []]. simpl. destruct entry as [name content].
    repeat split. exists n. split; [exact Eg | reflexivity].
  - intros [= <-] [].
Qed.

Lemma found_In (host : RegExpHost) (lib : PromptLibrary) (keyword : string)
    (categories : list string) (found : list SearchMatch) (m : SearchMatch) :
  collect (category_result host lib keyword) categories = ok found -> In m found ->
  In (match_category m) categories
  /\ In (match_name m, match_content m) (prompts_of lib (match_category m))
  /\ entry_matches keyword (match_name m, match_content m) = true
  /\ exists occurrences,
       global_match_count host (toLowerCase keyword) (toLowerCase (match_content m))
       = ok occurrences
       /\ match_relevance m
          = (if includes (toLowerCase (match_name m)) (toLowerCase keyword)
             then 10 else 0) + occurrences.
Proof.
  intros Hc Hin.
  destruct (collect_In _ _ _ _ Hc Hin) as [category [l [Hcat [Hl Hm]]]].
  unfold category_result in Hl.
  destruct (collect_In _ _ _ _ Hl Hm) as [entry [l' [Hentry [Hl' Hm']]]].
  destruct (entry_result_In _ _ _ _ _ _ Hl' Hm') as [Ec [Ee [Ematch Hrel]]].
  subst category. rewrite Ee. repeat split; assumption.
Qed.

Lemma flat_map_filter {A B : Type} (p : A -> bool) (f : A -> B) (xs : list A) :
  flat_map (fun x => if p x then [f x] else []) xs = map f (filter p xs).
Proof.
  induction xs as [| x xs IH]; simpl; [reflexivity |].
  rewrite IH. destruct (p x); reflexivity.
Qed.

Lemma filter_searched (lib : PromptLibrary) (p : string * string -> bool)
    (categories : list string) :
  flat_map (fun category => map (pair category) (filter p (prompts_of lib category)))
           categories
  = filter (fun d => p (snd d)) (searched lib categories).
Proof.
  unfold searched. induction categories as [| c cs IH]; simpl; [reflexivity |].
  rewrite filter_app, IH. f_equal.
  now rewrite filter_map_swap.
Qed.

(** The matches are met category by category, each category in
    registration order. *)
Lemma found_in_discovery_order (host : RegExpHost) (lib : PromptLibrary)
    (keyword : string) (categories : list string) (found : list SearchMatch) :
  collect (category_result host lib keyword) categories = ok found ->
  map discovery found
  = filter (fun d => entry_matches keyword (snd d)) (searched lib categories).
Proof.
  intros Hc. rewrite <- filter_searched.
  eapply collect_flat_map; [| exact Hc].
  intros category l Hl. unfold category_result in Hl.
  rewrite <- flat_map_filter.
  eapply collect_flat_map; [| exact Hl].
  intros entry l' Hl'. unfold entry_result in Hl'.
  destruct (entry_matches keyword entry).
  - destruct (global_match_count _ _ _); simpl in Hl'; [discriminate |].
    injection Hl' as <-. destruct entry. reflexivity.
  - now injection Hl' as <-.
Qed.

(** ** [search_prompts]: snippets *)

Lemma append_empty_r (s : string) : s ++ "" = s.
Proof. induction s as [| c s IH]; simpl; [reflexivity | now rewrite IH]. Qed.

Lemma substring_whole (n : nat) (s : string) :
  String.length s <= n -> substring 0 n s = s.
Proof.
  revert n. induction s as [| c s IH]; intros n Hn.
  - destruct n; reflexivity.
  - destruct n as [| n]; simpl in *; [lia |].
    rewrite IH by lia. reflexivity.
Qed.

Lemma snippet_long (content : string) :
  200 < String.length content -> snippet content = substring 0 200 content ++ "...".
Proof.
  intros H. unfold snippet. apply Nat.ltb_lt in H. now rewrite H.
Qed.

Lemma snippet_short (content : string) :
  String.length content <= 200 -> snippet content = content.
Proof.
  intros H. unfold snippet. rewrite (substring_whole 200 content H).
  apply Nat.ltb_ge in H. rewrite H. apply append_empty_r.
Qed.

Lemma results_In (host : RegExpHost) (this : PromptLibraryMCP) (keyword : string)
    (categories : option (list PromptCategory)) (output : SearchOutput)
    (h : SearchHit) :
  fst (search_prompts host keyword categories this) = SearchResults output ->
  In h (results output) ->
  exists found m,
    collect (category_result host (promptLibrary this) keyword)
            (search_categories (promptLibrary this) categories) = ok found
    /\ In m found /\ h = to_hit m.
Proof.
  intros Hout Hin.
  destruct (search_prompts_found _ _ _ _ _ Hout) as [found [_ [Hc [Hres _]]]].
  rewrite Hres in Hin. apply in_map_iff in Hin as [m [Hm Hin]].
  exists found, m. repeat split; [assumption | | now symmetry].
  eapply Permutation_in; [apply Array_sort_perm | exact Hin].
Qed.

Lemma snippet_specified (content : string) :
  snippet content = specified_snippet content.
Proof.
  unfold specified_snippet.
  destruct (String.length content <=? 200)%nat eqn:E.
  - apply Nat.leb_le in E. now apply snippet_short.
  - apply Nat.leb_gt in E. now apply snippet_long.
Qed.

(** The hits as shown, against the matching prompts of the searched
    categories. *)
Lemma hits_shown_of_found (host : RegExpHost) (lib : PromptLibrary)
    (keyword : string) (categories : list string) (found : list SearchMatch) :
  collect (category_result host lib keyword) categories = ok found ->
  Permutation
    (map hit_shown
         (map to_hit (Array_sort (fun a b => (0 <? by_relevance a b)%Z) found)))
    (map (fun d => (fst d, fst (snd d), specified_snippet (snd (snd d))))
         (filter (fun d => entry_matches keyword (snd d)) (searched lib categories))).
Proof.
  intros Hc. rewrite <- (found_in_discovery_order host lib keyword categories found Hc).
  rewrite !map_map.
  apply perm_trans with (map (fun m => hit_shown (to_hit m)) found).
  - apply Permutation_map with (f := fun m => hit_shown (to_hit m)).
    apply Array_sort_perm.
  - rewrite (map_ext (fun m => hit_shown (to_hit m))
               (fun m => (fst (discovery m), fst (snd (discovery m)),
                          specified_snippet (snd (snd (discovery m)))))).
    + apply Permutation_refl.
    + intros m. unfold hit_shown, to_hit, discovery. cbn [hit_category hit_name
        hit_snippet fst snd]. now rewrite snippet_specified.
Qed.

(** C6: every prompt of the searched categories that matches the keyword
    is returned as a hit, and every hit is such a prompt; the snippet of a
    hit is the first 200 characters of the text of its prompt followed by
    three dots when the text is longer than 200 characters, and the whole
    text, without dots, when it has 200 characters or fewer. *)
Theorem search_prompts_snippet :
  forall (host : RegExpHost) (this : PromptLibraryMCP) (keyword : string)
         (categories : option (list PromptCategory)) (output : SearchOutput),
    fst (search_prompts host keyword categories this) = SearchResults output ->
    Forall (fun h =>
              exists content,
                In (hit_name h, content) (prompts_of (promptLibrary this) (hit_category h))
                /\ (200 < String.length content ->
                    hit_snippet h = substring 0 200 content ++ "...")
                /\ (String.length content <= 200 -> hit_snippet h = content))
           (results output)
    /\ Permutation
         (map hit_shown (results output))
         (map (fun d => (fst d, fst (snd d), specified_snippet (snd (snd d))))
              (filter (fun d => entry_matches keyword (snd d))
                      (searched (promptLibrary this)
                                (search_categories (promptLibrary this) categories)))).
Proof.
  intros host this keyword categories output Hout. split.
  - apply Forall_forall. intros h Hin.
    destruct (results_In _ _ _ _ _ _ Hout Hin) as [found [m [Hc [Hm ->]]]].
    destruct (found_In _ _ _ _ _ _ Hc Hm) as [_ [Hprompt _]].
    exists (match_content m). cbn [to_hit hit_name hit_category hit_snippet].
    split; [exact Hprompt |]. split.
    + apply snippet_long.
    + apply snippet_short.
  - destruct (search_prompts_found _ _ _ _ _ Hout) as [found [_ [Hc [Hres _]]]].
    rewrite Hres. now apply hits_shown_of_found with (host := host).
Qed.

Lemma search_prompts_snippet_witness :
  (exists output,
     fst (search_prompts (fun _ _ => ok 0) "solid" None agent) = SearchResults output
     /\ map hit_shown (results output)
        = [ ("common", "code-quality", substring 0 200 codeQualityPrompt ++ "...") ]
     /\ Forall (fun h =>
                  exists content,
                    In (hit_name h, content)
                       (prompts_of (promptLibrary agent) (hit_category h))
                    /\ (200 < String.length content ->
                        hit_snippet h = substring 0 200 content ++ "...")
                    /\ (String.length content <= 200 -> hit_snippet h = content))
               (results output))
  /\ (exists output,
        fst (search_prompts (fun _ _ => ok 0) "solid" None
               {| server_tools := [];
                  promptLibrary := [ ("common", [ ("motto", "Keep it SOLID.") ]) ] |})
        = SearchResults output
        /\ Permutation (map hit_shown (results output))
                       [ ("common", "motto", "Keep it SOLID.") ]).
Proof.
  split.
  - eexists. split; [vm_compute; reflexivity |]. split; [vm_compute; reflexivity |].
    apply (search_prompts_snippet (fun _ _ => ok 0) agent "solid" None).
    vm_compute. reflexivity.
  - eexists. split; [vm_compute; reflexivity |].
    apply (search_prompts_snippet (fun _ _ => ok 0)
             {| server_tools := [];
                promptLibrary := [ ("common", [ ("motto", "Keep it SOLID.") ]) ] |}
             "solid" None).
    vm_compute. reflexivity.
Defined.

(** ** [search_prompts]: order of the hits *)

(** C7: the hits of a search descend in relevance, and the hits of any
    one relevance stand in the order in which the loop met them, which is
    the order of the searched categories and, within a category, the order
    of registration. *)
Theorem search_prompts_sorted_stable :
  forall (host : RegExpHost) (this : PromptLibraryMCP) (keyword : string)
         (categories : option (list PromptCategory)) (output : SearchOutput),
    fst (search_prompts host keyword categories this) = SearchResults output ->
    StronglySorted relevance_descends (results output)
    /\ exists discovered,
         for_of (search_categories (promptLibrary this) categories)
                (search_category host (promptLibrary this) keyword) [] = ok discovered
         /\ map discovery discovered
            = filter (fun d => entry_matches keyword (snd d))
                     (searched (promptLibrary this)
                               (search_categories (promptLibrary this) categories))
         /\ forall v,
              filter (with_relevance v) (results output)
              = filter (with_relevance v) (map to_hit discovered).
Proof.
  intros host this keyword categories output Hout.
  destruct (search_prompts_found _ _ _ _ _ Hout) as [found [Hloop [Hc [Hres _]]]].
  split.
  - rewrite Hres.
    apply (StronglySorted_map
             (fun a b => match_relevance b <= match_relevance a) relevance_descends).
    + intros a b Hab. exact Hab.
    + apply (Array_sort_sorted match_relevance). apply by_relevance_pos.
  - exists found. split; [exact Hloop |]. split.
    + now apply found_in_discovery_order with (host := host).
    + intros v. rewrite Hres, !filter_map_swap. f_equal.
      apply (Array_sort_stable match_relevance). apply by_relevance_pos.
Qed.

Lemma search_prompts_sorted_stable_witness :
  exists output,
    fst (search_prompts (fun _ _ => ok 0) "performance" None agent)
    = SearchResults output
    /\ map (fun h => (hit_name h, hit_relevance h)) (results output)
       = [ ("performance-optimization", 15); ("component-creation", 2);
           ("code-quality", 2); ("state-management", 1) ]
    /\ StronglySorted relevance_descends (results output).
Proof.
  eexists. split; [vm_compute; reflexivity |]. split; [vm_compute; reflexivity |].
  apply (search_prompts_sorted_stable (fun _ _ => ok 0) agent "performance" None).
  vm_compute. reflexivity.
Defined.

(** ** [search_prompts]: the empty keyword *)

Lemma toLowerCase_length (s : string) :
  String.length (toLowerCase s) = String.length s.
Proof. induction s as [| c s IH]; simpl; [reflexivity | now rewrite IH]. Qed.

Lemma includes_empty (s : string) : includes s "" = true.
Proof. destruct s; reflexivity. Qed.

Lemma match_count_empty_pattern (s : string) :
  match_count [] 0 s = S (String.length s).
Proof. induction s as [| c s IH]; simpl; [reflexivity | now rewrite IH]. Qed.

Lemma entry_result_empty_keyword (host : RegExpHost) (category : string)
    (entry : string * string) :
  entry_result host "" category entry
  = ok [ {| match_category := category; match_name := fst entry;
            match_content := snd entry;
            match_relevance := 10 + S (String.length (snd entry)) |} ].
Proof.
  unfold entry_result, entry_matches. cbn [toLowerCase].
  rewrite !includes_empty. cbn [orb].
  unfold global_match_count. cbn [parse_atoms bindE ok].
  now rewrite match_count_empty_pattern, toLowerCase_length.
Qed.

Lemma flat_map_singleton {A B : Type} (f : A -> B) (xs : list A) :
  flat_map (fun x => [f x]) xs = map f xs.
Proof. induction xs as [| x xs IH]; simpl; [reflexivity | now rewrite IH]. Qed.

Lemma category_result_empty_keyword (host : RegExpHost) (lib : PromptLibrary)
    (category : string) :
  category_result host lib "" category
  = ok (map (fun entry =>
               {| match_category := category; match_name := fst entry;
                  match_content := snd entry;
                  match_relevance := 10 + S (String.length (snd entry)) |})
            (prompts_of lib category)).
Proof.
  unfold category_result. rewrite <- flat_map_singleton.
  apply collect_total. intros entry _. apply entry_result_empty_keyword.
Qed.

Lemma found_empty_keyword (host : RegExpHost) (lib : PromptLibrary)
    (categories : list string) :
  collect (category_result host lib "") categories
  = ok (map (fun d => {| match_category := fst d; match_name := fst (snd d);
                         match_content := snd (snd d);
                         match_relevance := 10 + S (String.length (snd (snd d))) |})
            (searched lib categories)).
Proof.
  rewrite (collect_total _ _ _ (fun category _ =>
                                  category_result_empty_keyword host lib category)).
  f_equal. unfold searched.
  induction categories as [| category categories IH]; cbn [flat_map];
    [reflexivity |].
  rewrite map_app, map_map, IH. reflexivity.
Qed.

(** C9: with the empty keyword every prompt of the searched categories is a
    hit, each with relevance 10 plus one more than the length of its text,
    and the total is the number of prompts searched; the call does not end in
    an error. *)
Theorem search_prompts_empty_keyword :
  forall (host : RegExpHost) (this : PromptLibraryMCP)
         (categories : option (list PromptCategory)),
    exists output,
      fst (search_prompts host "" categories this) = SearchResults output
      /\ total_found output
         = List.length (searched (promptLibrary this)
                                 (search_categories (promptLibrary this) categories))
      /\ List.length (results output) = total_found output
      /\ Permutation
           (map (fun h => (hit_category h, hit_name h, hit_relevance h)) (results output))
           (map (fun d => (fst d, fst (snd d), 10 + S (String.length (snd (snd d)))))
                (searched (promptLibrary this)
                          (search_categories (promptLibrary this) categories))).
Proof.
  intros host this categories.
  rewrite search_prompts_collect, found_empty_keyword.
  eexists. split; [reflexivity |]. cbn [total_found results].
  set (found := map _ (searched _ _)).
  set (sorted := Array_sort _ found).
  assert (Hperm : Permutation sorted found) by apply Array_sort_perm.
  split; [| split].
  - rewrite (Permutation_length Hperm). unfold found. now rewrite length_map.
  - now rewrite length_map.
  - rewrite map_map.
    apply perm_trans with
      (map (fun m => (match_category m, match_name m, match_relevance m)) found).
    + apply Permutation_map with
        (f := fun m => (match_category m, match_name m, match_relevance m)).
      exact Hperm.
    + unfold found. rewrite map_map. apply Permutation_refl.
Qed.

(** ** [search_prompts]: relevance *)

Lemma parse_atoms_plain (k : string) :
  plain k = true -> parse_atoms k = Some (atoms_of k).
Proof.
  induction k as [| c k IH]; simpl; [reflexivity |].
  intros H. apply andb_prop in H as [Hc Hk]. rewrite (IH Hk).
  apply negb_true_iff in Hc.
  destruct (Ascii.eqb c ".") eqn:E.
  - apply Ascii.eqb_eq in E. subst c. discriminate Hc.
  - now rewrite Hc.
Qed.

Lemma atoms_of_length (k : string) : List.length (atoms_of k) = String.length k.
Proof. induction k as [| c k IH]; simpl; [reflexivity | now rewrite IH]. Qed.

Lemma match_here_atoms_of (k s : string) : match_here (atoms_of k) s = prefix k s.
Proof.
  revert s. induction k as [| d k IH]; intros s; simpl;
    [destruct s; reflexivity |].
  destruct s as [| c s]; [reflexivity |]. simpl.
  destruct (ascii_dec d c) as [-> | Hne].
  - rewrite Ascii.eqb_refl. apply IH.
  - assert (E : Ascii.eqb c d = false) by (apply Ascii.eqb_neq; congruence).
    now rewrite E.
Qed.

Lemma match_count_drop (atoms : list Atom) (skip : nat) (s : string) :
  atoms <> [] -> match_count atoms skip s = match_count atoms 0 (drop skip s).
Proof.
  intros Hne. revert s. induction skip as [| skip IH]; intros s.
  - destruct s; reflexivity.
  - destruct s as [| c s].
    + destruct atoms; [contradiction | reflexivity].
    + cbn [drop]. rewrite <- IH. reflexivity.
Qed.

Lemma drop_length (n : nat) (s : string) : String.length (drop n s) <= String.length s.
Proof.
  revert s. induction n as [| n IH]; intros s; [simpl; lia |].
  destruct s as [| c s]; simpl; [lia |]. specialize (IH s). lia.
Qed.

(** For a keyword without syntax characters the global match counts its
    occurrences that do not overlap. *)
Lemma match_count_occurrences (k : string) (fuel : nat) (s : string) :
  k <> "" -> String.length s <= fuel ->
  match_count (atoms_of k) 0 s = occurrences_within fuel k s.
Proof.
  intros Hk. assert (Hatoms : atoms_of k <> []) by (destruct k; [contradiction | discriminate]).
  revert s. induction fuel as [| fuel IH]; intros s Hlen.
  - destruct s; [| simpl in Hlen; lia].
    destruct k; [contradiction | reflexivity].
  - destruct s as [| c s].
    + destruct k; [contradiction | reflexivity].
    + cbn [match_count occurrences_within]. rewrite match_here_atoms_of.
      simpl in Hlen.
      destruct (prefix k (String c s)).
      * f_equal. rewrite (match_count_drop _ _ _ Hatoms), atoms_of_length.
        destruct k as [| d k]; [contradiction |]. cbn [String.length pred drop].
        apply IH. pose proof (drop_length (String.length k) s). lia.
      * apply IH. lia.
Qed.

Lemma toLowerCase_empty (k : string) : toLowerCase k = "" -> k = "".
Proof. destruct k; [reflexivity | discriminate]. Qed.

Lemma global_match_count_plain (host : RegExpHost) (k s : string) :
  plain k = true -> k <> "" ->
  global_match_count host k s = ok (count_occurrences k s).
Proof.
  intros Hplain Hk. unfold global_match_count, count_occurrences.
  rewrite (parse_atoms_plain k Hplain).
  now rewrite (match_count_occurrences k (String.length s) s Hk (le_n _)).
Qed.

(** For a non-empty keyword whose lower-case form has no syntax character,
    every hit carries the relevance of the specification: 10 for a name that
    contains the keyword, plus the occurrences of the keyword in the text. *)
Lemma search_prompts_relevance_plain_keyword (host : RegExpHost)
    (this : PromptLibraryMCP) (keyword : string)
    (categories : option (list PromptCategory)) (output : SearchOutput) :
  keyword <> "" -> plain (toLowerCase keyword) = true ->
  fst (search_prompts host keyword categories this) = SearchResults output ->
  Forall (fun h =>
            exists content,
              In (hit_name h, content) (prompts_of (promptLibrary this) (hit_category h))
              /\ hit_relevance h = specified_relevance keyword (hit_name h) content)
         (results output).
Proof.
  intros Hk Hplain Hout. apply Forall_forall. intros h Hin.
  destruct (results_In _ _ _ _ _ _ Hout Hin) as [found [m [Hc [Hm ->]]]].
  destruct (found_In _ _ _ _ _ _ Hc Hm) as [_ [Hprompt [_ [n [Hn Hrel]]]]].
  exists (match_content m). cbn [to_hit hit_name hit_category hit_relevance].
  split; [exact Hprompt |].
  rewrite global_match_count_plain in Hn;
    [| assumption | intros E; apply Hk; now apply toLowerCase_empty].
  injection Hn as <-. exact Hrel.
Qed.

(** A keyword in which a group opens and never closes makes the search end
    in its catch block as soon as a prompt contains it. *)
Lemma search_prompts_unterminated_group (host : RegExpHost) :
  fst (search_prompts host "(" None agent)
  = Fault "Error searching prompts" (SyntaxError "(").
Proof. vm_compute. reflexivity. Qed.

(** C2, at an input on which the code departs from it: for the keyword
    consisting of a dot, the prompt [code-quality] is a hit whose name does
    not contain the keyword and whose text contains it twice, so that the
    specified relevance is 2; the code, which reads the keyword as a pattern,
    counts every character of the text that is not a line terminator and
    reports 1811. *)
Theorem search_prompts_dot_keyword_relevance :
  forall host : RegExpHost,
    exists output,
      fst (search_prompts host "." (Some [common]) agent) = SearchResults output
      /\ map (fun h => (hit_category h, hit_name h, hit_relevance h)) (results output)
         = [ ("common", "code-quality", 1811) ]
      /\ specified_relevance "." "code-quality" codeQualityPrompt = 2.
Proof.
  intros host. eexists. split; [vm_compute; reflexivity |].
  split; vm_compute; reflexivity.
Qed.

(** * Further properties of the tools *)

(** ** Strings *)

Lemma append_length (a b : string) :
  String.length (a ++ b) = String.length a + String.length b.
Proof. induction a as [| c a IH]; simpl; [reflexivity | now rewrite IH]. Qed.

Lemma prefix_append (k s : string) :
  prefix k s = true <-> exists after, s = k ++ after.
Proof.
  revert s. induction k as [| d k IH]; intros s.
  - split; [intros _; now exists s | intros _; destruct s; reflexivity].
  - destruct s as [| c s]; simpl.
    + split; [discriminate | intros [after H]; discriminate H].
    + destruct (ascii_dec d c) as [-> | Hne].
      * rewrite IH. split; intros [after H]; exists after.
        -- now rewrite H.
        -- simpl in H. now injection H.
      * split; [discriminate |]. intros [after H]. simpl in H.
        injection H as E _. now contradiction Hne.
Qed.

Lemma prefix_length (k s : string) :
  prefix k s = true -> String.length k <= String.length s.
Proof.
  intros H. apply prefix_append in H as [after ->]. rewrite append_length. lia.
Qed.

Lemma includes_nil (k : string) : includes "" k = prefix k "".
Proof.
  change (includes "" k) with (if prefix k "" then true else false).
  now destruct (prefix k "").
Qed.

Lemma includes_cons (c : ascii) (s k : string) :
  includes (String c s) k = prefix k (String c s) || includes s k.
Proof.
  change (includes (String c s) k)
    with (if prefix k (String c s) then true else includes s k).
  now destruct (prefix k (String c s)).
Qed.

Lemma includes_occurs (s k : string) : includes s k = true <-> occurs k s.
Proof.
  split.
  - induction s as [| c s IH].
    + rewrite includes_nil. intros E.
      apply prefix_append in E as [after E]. exists "", after. exact E.
    + rewrite includes_cons. intros H. apply orb_prop in H as [E | H].
      * apply prefix_append in E as [after E]. exists "", after. exact E.
      * destruct (IH H) as [before [after ->]].
        exists (String c before), after. reflexivity.
  - intros [before [after ->]]. induction before as [| c before IH].
    + assert (E : prefix k (k ++ after) = true)
        by (apply prefix_append; now exists after).
      change ("" ++ k ++ after) with (k ++ after).
      destruct (k ++ after) as [| c t].
      * now rewrite includes_nil.
      * rewrite includes_cons, E. reflexivity.
    + change (String c before ++ k ++ after)
        with (String c (before ++ k ++ after)).
      rewrite includes_cons, IH. apply orb_true_r.
Qed.

Lemma lower_unit_idempotent (c : ascii) : lower_unit (lower_unit c) = lower_unit c.
Proof. destruct c as [[] [] [] [] [] [] [] []]; reflexivity. Qed.

Lemma toLowerCase_idempotent (s : string) :
  toLowerCase (toLowerCase s) = toLowerCase s.
Proof.
  induction s as [| c s IH]; simpl; [reflexivity |].
  now rewrite lower_unit_idempotent, IH.
Qed.

Lemma lower_unit_line_terminator (c : ascii) :
  line_terminator (lower_unit c) = line_terminator c.
Proof. destruct c as [[] [] [] [] [] [] [] []]; reflexivity. Qed.

Lemma count_non_terminators_lower (s : string) :
  count_non_terminators (toLowerCase s) = count_non_terminators s.
Proof.
  induction s as [| c s IH]; simpl; [reflexivity |].
  now rewrite lower_unit_line_terminator, IH.
Qed.

Lemma toUpperCase_length (s : string) :
  String.length (toUpperCase s) = String.length s.
Proof. induction s as [| c s IH]; simpl; [reflexivity | now rewrite IH]. Qed.

Lemma substring_length_le (n : nat) (s : string) :
  String.length (substring 0 n s) <= n.
Proof.
  revert n. induction s as [| c s IH]; intros n.
  - destruct n; simpl; lia.
  - destruct n as [| n]; simpl; [lia |]. specialize (IH n). lia.
Qed.

Lemma drop_length_exact (n : nat) (s : string) :
  String.length (drop n s) = String.length s - n.
Proof.
  revert s. induction n as [| n IH]; intros s; [simpl; lia |].
  destruct s as [| c s]; simpl; [reflexivity | apply IH].
Qed.

(** ** Categories and single prompts *)

Lemma own_property_some_keys {A : Type} (o : Obj A) (k : string) :
  (exists v, own_property o k = Some v) <-> In k (Object_keys o).
Proof.
  split.
  - intros [v H]. apply own_property_In in H. apply (in_map fst _ _ H).
  - intros Hin. destruct (own_property o k) as [v |] eqn:E; [now exists v |].
    apply own_property_none_keys in E. contradiction.
Qed.

Lemma get_prompts_by_category_run (this : PromptLibraryMCP) (category : PromptCategory) :
  fst (get_prompts_by_category category this)
  = match own_property (promptLibrary this) (category_key category) with
    | None => CategoryNotFound (category_key category)
    | Some prompts =>
        PromptList (category_key category)
          (map (fun name => (name, Get prompts name)) (Object_keys prompts))
          (List.length prompts)
    end.
Proof.
  run_tool get_prompts_by_category.
  destruct (own_property (promptLibrary this) (category_key category)); simpl;
    [| reflexivity].
  unfold Object_keys. now rewrite !length_map.
Qed.

Lemma get_prompt_run (this : PromptLibraryMCP) (category : PromptCategory)
    (name : string) :
  fst (get_prompt category name this)
  = match own_property (promptLibrary this) (category_key category) with
    | None => CategoryNotFound (category_key category)
    | Some prompts =>
        if ToBoolean (Get prompts name) then PromptText (Get prompts name)
        else PromptNotFound name (category_key category)
    end.
Proof.
  run_tool get_prompt.
  destruct (own_property (promptLibrary this) (category_key category)); simpl;
    [| reflexivity].
  now destruct (ToBoolean (Get o name)).
Qed.

(** In any library, [get_prompts_by_category] answers a category with a
    prompt list when its key is among those that [get_categories] returns,
    and otherwise, and only otherwise, it and [get_prompt] report that the
    category was not found. *)
Lemma category_answers_follow_the_keys :
  forall (this : PromptLibraryMCP) (category : PromptCategory),
    exists keys,
      fst (get_categories this) = Categories keys
      /\ (In (category_key category) keys <->
          exists prompts count,
            fst (get_prompts_by_category category this)
            = PromptList (category_key category) prompts count)
      /\ (~ In (category_key category) keys <->
          fst (get_prompts_by_category category this)
          = CategoryNotFound (category_key category))
      /\ (~ In (category_key category) keys <->
          forall name,
            fst (get_prompt category name this)
            = CategoryNotFound (category_key category)).
Proof.
  intros this category. exists (Object_keys (promptLibrary this)).
  split; [reflexivity |].
  rewrite get_prompts_by_category_run.
  rewrite <- own_property_none_keys, <- own_property_some_keys.
  destruct (own_property (promptLibrary this) (category_key category))
    as [prompts |] eqn:E.
  - split; [| split].
    + split; [intros _; eexists; eexists; reflexivity | intros _; now exists prompts].
    + split; discriminate.
    + split; [discriminate |]. intros H. specialize (H "").
      rewrite get_prompt_run, E in H. destruct (ToBoolean _); discriminate H.
  - split; [| split].
    + split; [intros [v H]; discriminate H | intros [p [n H]]; discriminate H].
    + split; reflexivity.
    + split; [| reflexivity]. intros _ name. now rewrite get_prompt_run, E.
Qed.

(** X2: a text that [get_prompt] returns is the text stored under that
    name in that category, and it is not empty. *)
Theorem get_prompt_returns_the_stored_text :
  forall (this : PromptLibraryMCP) (category : PromptCategory) (name text : string),
    fst (get_prompt category name this) = PromptText (Str text) ->
    exists prompts,
      own_property (promptLibrary this) (category_key category) = Some prompts
      /\ own_property prompts name = Some text
      /\ In (name, text) prompts
      /\ text <> "".
Proof.
  intros this category name text. rewrite get_prompt_run.
  destruct (own_property (promptLibrary this) (category_key category))
    as [prompts |]; [| discriminate].
  unfold Get. destruct (own_property prompts name) as [s |] eqn:E.
  - simpl. destruct (String.eqb s "") eqn:Es; simpl; [discriminate |].
    intros [= ->]. exists prompts.
    split; [reflexivity |]. split; [exact E |]. split.
    + now apply own_property_In.
    + now apply String.eqb_neq.
  - destruct (inherited name); simpl; discriminate.
Qed.

Lemma get_prompt_returns_the_stored_text_witness :
  exists prompts,
    own_property (promptLibrary agent) (category_key common) = Some prompts
    /\ own_property prompts "code-quality" = Some codeQualityPrompt
    /\ In ("code-quality", codeQualityPrompt) prompts
    /\ codeQualityPrompt <> "".
Proof.
  apply (get_prompt_returns_the_stored_text agent common "code-quality").
  reflexivity.
Defined.

(** X3: a prompt stored with an empty text is listed by
    [get_prompts_by_category] and yet reported as not found by [get_prompt],
    which takes the empty string for a missing prompt. *)
Theorem get_prompt_reports_an_empty_text_as_not_found :
  forall (this : PromptLibraryMCP) (category : PromptCategory)
         (prompts : Obj string) (name : string),
    own_property (promptLibrary this) (category_key category) = Some prompts ->
    own_property prompts name = Some "" ->
    fst (get_prompt category name this) = PromptNotFound name (category_key category)
    /\ exists listed count,
         fst (get_prompts_by_category category this)
         = PromptList (category_key category) listed count
         /\ In (name, Str "") listed.
Proof.
  intros this category prompts name Hown Hname. split.
  - rewrite get_prompt_run, Hown. unfold Get. now rewrite Hname.
  - rewrite get_prompts_by_category_run, Hown. eexists. eexists.
    split; [reflexivity |].
    apply in_map_iff. exists name. split.
    + unfold Get. now rewrite Hname.
    + apply own_property_some_keys. now exists "".
Qed.

Lemma get_prompt_reports_an_empty_text_as_not_found_witness :
  fst (get_prompt fe "draft"
         {| server_tools := []; promptLibrary := [ ("fe", [ ("draft", "") ]) ] |})
  = PromptNotFound "draft" "fe"
  /\ exists listed count,
       fst (get_prompts_by_category fe
              {| server_tools := [];
                 promptLibrary := [ ("fe", [ ("draft", "") ]) ] |})
       = PromptList "fe" listed count
       /\ In ("draft", Str "") listed.
Proof.
  apply (get_prompt_reports_an_empty_text_as_not_found
           {| server_tools := []; promptLibrary := [ ("fe", [ ("draft", "") ]) ] |}
           fe [ ("draft", "") ] "draft"); reflexivity.
Defined.

(** ** Catch blocks *)

Lemma collect_defined {A B : Type} (g : A -> Completion (list B)) (xs : list A) :
  (forall x, exists l, g x = ok l) -> exists r, collect g xs = ok r.
Proof.
  intros Hg. induction xs as [| x xs [r IH]]; simpl.
  - now exists [].
  - destruct (Hg x) as [l ->]. rewrite IH. simpl. now eexists.
Qed.

Lemma found_defined (host : RegExpHost) (lib : PromptLibrary) (keyword : string)
    (categories : list string) (atoms : list Atom) :
  parse_atoms (toLowerCase keyword) = Some atoms ->
  exists found, collect (category_result host lib keyword) categories = ok found.
Proof.
  intros Hparse. apply collect_defined. intros category.
  unfold category_result. apply collect_defined. intros entry.
  unfold entry_result, global_match_count. rewrite Hparse.
  destruct (entry_matches keyword entry); simpl; now eexists.
Qed.

(** X4: a tool call ends in a catch block only if it is a search whose
    keyword, in lower case, holds a pattern syntax character other than the
    dot; the four other tools never do. *)
Theorem only_a_search_pattern_reaches_a_catch_block :
  forall (host : RegExpHost) (call : ToolCall) (this : PromptLibraryMCP)
         (context : string) (error : Thrown),
    fst (serve host call this) = Fault context error ->
    exists keyword categories,
      call = call_search_prompts keyword categories
      /\ context = "Error searching prompts"
      /\ parse_atoms (toLowerCase keyword) = None.
Proof.
  intros host call this context error. destruct call; cbn [serve].
  - discriminate.
  - rewrite get_prompts_by_category_run. destruct (own_property _ _); discriminate.
  - rewrite get_prompt_run. destruct (own_property _ _); [| discriminate].
    destruct (ToBoolean _); discriminate.
  - rewrite combine_prompts_blocks. destruct (flat_map _ _); discriminate.
  - rewrite search_prompts_collect.
    destruct (collect _ _) as [e | found] eqn:E; [| discriminate].
    intros [= <- <-]. exists keyword, categories. repeat split.
    destruct (parse_atoms (toLowerCase keyword)) as [atoms |] eqn:Hparse;
      [| reflexivity].
    destruct (found_defined host (promptLibrary this) keyword
                (search_categories (promptLibrary this) categories) atoms Hparse)
      as [found Hfound].
    rewrite Hfound in E. discriminate E.
Qed.

Lemma only_a_search_pattern_reaches_a_catch_block_witness :
  exists keyword categories,
    call_search_prompts "(Memo" None = call_search_prompts keyword categories
    /\ "Error searching prompts" = "Error searching prompts"
    /\ parse_atoms (toLowerCase keyword) = None.
Proof.
  apply (only_a_search_pattern_reaches_a_catch_block (fun _ _ => ok 0)
           (call_search_prompts "(Memo" None) agent
           "Error searching prompts" (SyntaxError "(memo")).
  vm_compute. reflexivity.
Defined.

(** ** The loaded agent *)

Lemma promptLiteral_category (category : PromptCategory) :
  exists prompt prompts,
    own_property promptLiteral (category_key category) = Some (prompt :: prompts).
Proof. destruct category; eexists; eexists; reflexivity. Qed.

(** X5: on the loaded agent every category that the tool schemas admit is
    registered with at least one prompt: [get_categories] lists it,
    [get_prompts_by_category] answers with a count of at least one, and
    [get_prompt] never reports the category as not found, whatever the name. *)
Theorem loaded_agent_knows_every_category :
  forall category : PromptCategory,
    (exists keys,
       fst (get_categories agent) = Categories keys
       /\ In (category_key category) keys)
    /\ (exists prompts count,
          fst (get_prompts_by_category category agent)
          = PromptList (category_key category) prompts count
          /\ 1 <= count)
    /\ (forall name missing,
          fst (get_prompt category name agent) <> CategoryNotFound missing).
Proof.
  intros category.
  destruct (promptLiteral_category category) as [prompt [prompts Hown]].
  split; [| split].
  - eexists. split; [reflexivity |].
    apply own_property_some_keys. eexists. exact Hown.
  - rewrite get_prompts_by_category_run.
    change (promptLibrary agent) with promptLiteral. rewrite Hown.
    eexists. eexists. split; [reflexivity |]. simpl. lia.
  - intros name missing. rewrite get_prompt_run.
    change (promptLibrary agent) with promptLiteral. rewrite Hown.
    destruct (ToBoolean _); discriminate.
Qed.

(** X6: on the loaded agent [combine_prompts] answers that no prompts were
    found for the empty request only; any other request is answered with at
    least as many blocks as it names categories. *)
Theorem loaded_agent_combines_every_request :
  forall (categories : list PromptCategory) (separator : option string),
    (fst (combine_prompts categories separator agent) = NoPromptsFound
     <-> categories = [])
    /\ (categories <> [] ->
        exists result,
          fst (combine_prompts categories separator agent) = Combined result
          /\ List.length categories <= total_prompts result).
Proof.
  intros categories separator. rewrite combine_prompts_blocks.
  change (promptLibrary agent) with promptLiteral.
  assert (Hlen : List.length categories
                 <= List.length (flat_map (category_blocks promptLiteral)
                                          (map category_key categories))).
  { induction categories as [| c cs IH]; cbn [map flat_map]; [simpl; lia |].
    rewrite length_app. unfold category_blocks at 1, prompts_of.
    destruct (promptLiteral_category c) as [prompt [prompts ->]].
    rewrite length_map. cbn [List.length]. lia. }
  destruct (flat_map (category_blocks promptLiteral) (map category_key categories))
    as [| block blocks] eqn:E.
  - destruct categories; [| simpl in Hlen; lia].
    split; [split; reflexivity | intros H; now contradiction H].
  - split.
    + split; [intros H; discriminate H |]. intros ->. discriminate E.
    + intros _. eexists. split; [reflexivity |]. exact Hlen.
Qed.

(** ** [combine_prompts]: what is included *)

Lemma searched_In (lib : PromptLibrary) (categories : list string)
    (d : string * (string * string)) :
  In d (searched lib categories)
  <-> In (fst d) categories /\ In (snd d) (prompts_of lib (fst d)).
Proof.
  unfold searched. rewrite in_flat_map. split.
  - intros [category [Hc Hd]]. apply in_map_iff in Hd as [entry [<- Hentry]].
    simpl. auto.
  - intros [Hc Hd]. exists (fst d). split; [assumption |].
    apply in_map_iff. exists (snd d). split; [now destruct d | assumption].
Qed.

Lemma blocks_of_searched (lib : PromptLibrary) (categories : list string) :
  flat_map (category_blocks lib) categories
  = map (fun d => prompt_block (fst d) (fst (snd d)) (snd (snd d)))
        (searched lib categories).
Proof.
  unfold searched, category_blocks.
  induction categories as [| c cs IH]; cbn [flat_map]; [reflexivity |].
  now rewrite map_app, map_map, IH.
Qed.

Lemma included_of_searched (lib : PromptLibrary) (categories : list string) :
  flat_map (category_included lib) categories
  = map (fun d => (fst d, fst (snd d))) (searched lib categories).
Proof.
  unfold searched, category_included.
  induction categories as [| c cs IH]; cbn [flat_map]; [reflexivity |].
  now rewrite map_app, map_map, IH.
Qed.

Lemma searched_app (lib : PromptLibrary) (cs1 cs2 : list string) :
  searched lib (cs1 ++ cs2) = (searched lib cs1 ++ searched lib cs2)%list.
Proof. unfold searched. apply flat_map_app. Qed.

(** What [combine_prompts] returns, in terms of the prompts of the
    requested categories. *)
Lemma combine_prompts_searched (this : PromptLibraryMCP)
    (categories : list PromptCategory) (separator : option string) :
  fst (combine_prompts categories separator this)
  = match searched (promptLibrary this) (map category_key categories) with
    | [] => NoPromptsFound
    | (_ :: _) as prompts =>
        Combined
          {| combined_prompt :=
               Array_join
                 (map (fun d => prompt_block (fst d) (fst (snd d)) (snd (snd d)))
                      prompts)
                 (separator_of separator);
             included_prompts := map (fun d => (fst d, fst (snd d))) prompts;
             total_prompts := List.length prompts;
             categories_processed := map category_key categories |}
    end.
Proof.
  rewrite combine_prompts_blocks, blocks_of_searched, included_of_searched.
  destruct (searched _ _) as [| d ds]; [reflexivity |].
  cbn [map]. rewrite !length_cons, length_map. reflexivity.
Qed.

Lemma combine_prompts_combined (this : PromptLibraryMCP)
    (categories : list PromptCategory) (separator : option string)
    (result : CombinedPrompts) :
  fst (combine_prompts categories separator this) = Combined result ->
  searched (promptLibrary this) (map category_key categories) <> []
  /\ combined_prompt result
     = Array_join
         (map (fun d => prompt_block (fst d) (fst (snd d)) (snd (snd d)))
              (searched (promptLibrary this) (map category_key categories)))
         (separator_of separator)
  /\ included_prompts result
     = map (fun d => (fst d, fst (snd d)))
           (searched (promptLibrary this) (map category_key categories))
  /\ total_prompts result
     = List.length (searched (promptLibrary this) (map category_key categories))
  /\ categories_processed result = map category_key categories.
Proof.
  rewrite combine_prompts_searched.
  destruct (searched (promptLibrary this) (map category_key categories))
    as [| d ds]; [discriminate |].
  cbv zeta. intros H.
  apply (f_equal (fun r => match r with Combined x => x | _ => result end)) in H.
  cbv beta iota in H. subst result.
  cbn [combined_prompt included_prompts total_prompts categories_processed].
  split; [discriminate |]. repeat split.
Qed.

(** X7: in an answer of [combine_prompts] the total is the number of
    included pairs and is not zero, the requested categories are echoed, and
    the included pairs are the prompts of the requested categories: each
    pair names a requested category and a prompt registered under it, and
    every prompt registered under a requested category is included. *)
Theorem combine_prompts_includes_the_requested_prompts :
  forall (this : PromptLibraryMCP) (categories : list PromptCategory)
         (separator : option string) (result : CombinedPrompts),
    fst (combine_prompts categories separator this) = Combined result ->
    total_prompts result = List.length (included_prompts result)
    /\ 0 < total_prompts result
    /\ categories_processed result = map category_key categories
    /\ (forall category name,
          In (category, name) (included_prompts result) <->
          (exists c, In c categories /\ category_key c = category)
          /\ exists text, In (name, text) (prompts_of (promptLibrary this) category)).
Proof.
  intros this categories separator result Hresult.
  destruct (combine_prompts_combined _ _ _ _ Hresult)
    as [Hsome [_ [Hincluded [Htotal Hprocessed]]]].
  rewrite Htotal, Hincluded, Hprocessed.
  split; [now rewrite length_map |]. split.
  { destruct (searched _ _); [contradiction | simpl; lia]. }
  split; [reflexivity |].
  intros category name. rewrite in_map_iff. split.
  - intros [[c [n text]] [Heq Hin]]. simpl in Heq. injection Heq as -> ->.
    apply searched_In in Hin as [Hc Hp]. simpl in Hc, Hp.
    split; [| now exists text].
    apply in_map_iff in Hc as [c [Hkey Hc]]. now exists c.
  - intros [[c [Hc <-]] [text Hp]]. exists (category_key c, (name, text)).
    split; [reflexivity |]. apply searched_In. simpl.
    split; [now apply in_map | assumption].
Qed.

Lemma combine_prompts_includes_the_requested_prompts_witness :
  exists result,
    fst (combine_prompts [fe; fe] None agent) = Combined result
    /\ total_prompts result = 4
    /\ (In ("fe", "accessibility") (included_prompts result) <->
        (exists c, In c [fe; fe] /\ category_key c = "fe")
        /\ exists text,
             In ("accessibility", text) (prompts_of (promptLibrary agent) "fe")).
Proof.
  eexists. split; [vm_compute; reflexivity |]. split; [reflexivity |].
  apply (combine_prompts_includes_the_requested_prompts agent [fe; fe] None).
  vm_compute. reflexivity.
Defined.

Lemma listed_count_prompts (this : PromptLibraryMCP) (category : PromptCategory) :
  listed_count (fst (get_prompts_by_category category this))
  = List.length (prompts_of (promptLibrary this) (category_key category)).
Proof.
  rewrite get_prompts_by_category_run. unfold prompts_of.
  now destruct (own_property (promptLibrary this) (category_key category)).
Qed.

Lemma searched_length (lib : PromptLibrary) (categories : list string) :
  List.length (searched lib categories)
  = list_sum (map (fun category => List.length (prompts_of lib category)) categories).
Proof.
  unfold searched. induction categories as [| c cs IH]; cbn [flat_map map list_sum];
    [reflexivity |].
  now rewrite length_app, length_map, IH.
Qed.

(** X8: the total of [combine_prompts] is the sum, over the requested
    categories in their multiplicity, of the counts that
    [get_prompts_by_category] reports for them, a category that is not found
    counting zero; the answer is that no prompts were found exactly when
    this sum is zero. *)
Theorem combine_prompts_total_is_the_sum_of_the_counts :
  forall (this : PromptLibraryMCP) (categories : list PromptCategory)
         (separator : option string),
    let counts :=
      list_sum (map (fun category =>
                       listed_count (fst (get_prompts_by_category category this)))
                    categories) in
    (counts = 0 /\ fst (combine_prompts categories separator this) = NoPromptsFound)
    \/ (0 < counts
        /\ exists result,
             fst (combine_prompts categories separator this) = Combined result
             /\ total_prompts result = counts).
Proof.
  intros this categories separator counts.
  assert (Hcounts : counts
                    = List.length (searched (promptLibrary this)
                                            (map category_key categories))).
  { unfold counts. rewrite searched_length, map_map.
    f_equal. apply map_ext. intros c. apply listed_count_prompts. }
  rewrite combine_prompts_searched, Hcounts.
  destruct (searched (promptLibrary this) (map category_key categories)) as [| d ds].
  - left. split; reflexivity.
  - right. split; [simpl; lia |]. eexists. split; reflexivity.
Qed.

(** ** [combine_prompts]: the combined text *)

(** X9: when two requests are each answered with a combined text, the
    request that names the categories of the first and then those of the
    second is answered with the first text, the separator and the second
    text; its included pairs and its echoed categories are those of the
    first followed by those of the second, and its total is the sum of the
    two totals. *)
Theorem combine_prompts_of_concatenated_requests :
  forall (this : PromptLibraryMCP) (cs1 cs2 : list PromptCategory)
         (separator : option string) (r1 r2 : CombinedPrompts),
    fst (combine_prompts cs1 separator this) = Combined r1 ->
    fst (combine_prompts cs2 separator this) = Combined r2 ->
    exists r,
      fst (combine_prompts (cs1 ++ cs2) separator this) = Combined r
      /\ combined_prompt r
         = combined_prompt r1 ++ separator_of separator ++ combined_prompt r2
      /\ included_prompts r = (included_prompts r1 ++ included_prompts r2)%list
      /\ total_prompts r = total_prompts r1 + total_prompts r2
      /\ categories_processed r
         = (categories_processed r1 ++ categories_processed r2)%list.
Proof.
  intros this cs1 cs2 separator r1 r2 H1 H2.
  destruct (combine_prompts_combined _ _ _ _ H1) as [S1 [T1 [I1 [N1 P1]]]].
  destruct (combine_prompts_combined _ _ _ _ H2) as [S2 [T2 [I2 [N2 P2]]]].
  rewrite T1, T2, I1, I2, N1, N2, P1, P2.
  rewrite combine_prompts_searched, map_app, searched_app.
  destruct (searched (promptLibrary this) (map category_key cs1)) as [| d1 ds1];
    [contradiction |].
  destruct (searched (promptLibrary this) (map category_key cs2)) as [| d2 ds2];
    [contradiction |].
  cbn [app]. eexists. split; [reflexivity |].
  cbn [combined_prompt included_prompts total_prompts categories_processed].
  change (d1 :: (ds1 ++ d2 :: ds2)%list) with ((d1 :: ds1) ++ (d2 :: ds2))%list.
  rewrite !map_app, length_app. split; [| repeat split].
  apply Array_join_app; discriminate.
Qed.

Lemma combine_prompts_of_concatenated_requests_witness :
  exists r,
    fst (combine_prompts ([common; react] ++ [common]) (Some "|") agent) = Combined r
    /\ included_prompts r
       = [ ("common", "code-quality"); ("react", "component-creation");
           ("react", "state-management"); ("common", "code-quality") ]
    /\ total_prompts r = 4.
Proof.
  destruct (combine_prompts_of_concatenated_requests agent [common; react] [common]
              (Some "|") _ _ eq_refl eq_refl)
    as [r [Hr [_ [Hincluded [Htotal _]]]]].
  exists r. split; [exact Hr |]. split; [exact Hincluded | exact Htotal].
Defined.

Lemma Array_join_length (xs : list string) (sep : string) :
  String.length (Array_join xs sep)
  = list_sum (map String.length xs) + (List.length xs - 1) * String.length sep.
Proof.
  induction xs as [| x xs IH]; [reflexivity |].
  destruct xs as [| y ys].
  - simpl. lia.
  - change (Array_join (x :: y :: ys) sep)
      with (x ++ sep ++ Array_join (y :: ys) sep).
    rewrite !append_length, IH. simpl. rewrite Nat.sub_0_r. lia.
Qed.

Lemma prompt_block_length (category name content : string) :
  String.length (prompt_block category name content)
  = block_size (category, (name, content)).
Proof.
  unfold prompt_block, block_size. rewrite !append_length, toUpperCase_length.
  simpl. lia.
Qed.

(** X10: the combined text is as long as its blocks and the separators
    between them: each block takes 25 code units for its two header lines
    besides the category key, the name and the text of its prompt, and one
    separator fewer than there are blocks is inserted. *)
Theorem combine_prompts_text_length :
  forall (this : PromptLibraryMCP) (categories : list PromptCategory)
         (separator : option string) (result : CombinedPrompts),
    fst (combine_prompts categories separator this) = Combined result ->
    String.length (combined_prompt result)
    = list_sum (map block_size
                    (searched (promptLibrary this) (map category_key categories)))
      + (total_prompts result - 1) * String.length (separator_of separator).
Proof.
  intros this categories separator result Hresult.
  destruct (combine_prompts_combined _ _ _ _ Hresult) as [_ [Htext [_ [Htotal _]]]].
  rewrite Htext, Htotal, Array_join_length, map_map, length_map. f_equal.
  f_equal. apply map_ext. intros [category [name content]].
  apply prompt_block_length.
Qed.

Lemma combine_prompts_text_length_witness :
  exists result,
    fst (combine_prompts [common; common] None agent) = Combined result
    /\ String.length (combined_prompt result)
       = list_sum (map block_size
                       (searched (promptLibrary agent)
                                 (map category_key [common; common])))
         + (total_prompts result - 1) * String.length (separator_of None)
    /\ String.length (combined_prompt result)
       = (25 + 6 + 12 + 1860) + (25 + 6 + 12 + 1860) + 1 * 7.
Proof.
  eexists. split; [reflexivity |]. split.
  - apply (combine_prompts_text_length agent [common; common] None). reflexivity.
  - vm_compute. reflexivity.
Defined.

Lemma Array_join_occurs (xs : list string) (sep b : string) :
  In b xs -> occurs b (Array_join xs sep).
Proof.
  induction xs as [| x xs IH]; [contradiction |].
  destruct xs as [| y ys].
  - intros [<- | []]. exists "", "". simpl. now rewrite append_empty_r.
  - change (Array_join (x :: y :: ys) sep)
      with (x ++ sep ++ Array_join (y :: ys) sep).
    intros [<- | Hin].
    + exists "", (sep ++ Array_join (y :: ys) sep). reflexivity.
    + destruct (IH Hin) as [before [after ->]].
      exists (x ++ sep ++ before), after. now rewrite !append_assoc.
Qed.

(** X11: on an initialized agent every pair that [combine_prompts]
    includes can be fetched with [get_prompt], and the block made of the two
    header lines and the fetched text occurs in the combined text. *)
Theorem combine_prompts_includes_what_get_prompt_returns :
  forall (this : PromptLibraryMCP) (categories : list PromptCategory)
         (separator : option string) (result : CombinedPrompts),
    initialized this ->
    fst (combine_prompts categories separator this) = Combined result ->
    Forall (fun p =>
              exists category text,
                In category categories
                /\ category_key category = fst p
                /\ fst (get_prompt category (snd p) this) = PromptText (Str text)
                /\ occurs (prompt_block (fst p) (snd p) text) (combined_prompt result))
           (included_prompts result).
Proof.
  intros this categories separator result Hinit Hresult.
  destruct (initialized_library this Hinit) as [Hwf Hne].
  destruct (combine_prompts_combined _ _ _ _ Hresult) as [_ [Htext [Hincluded _]]].
  rewrite Htext, Hincluded.
  apply Forall_forall. intros p Hp.
  apply in_map_iff in Hp as [[key [name text]] [<- Hd]]. cbn [fst snd].
  pose proof Hd as Hs. apply searched_In in Hs as [Hkey Hprompt].
  cbn [fst snd] in Hkey, Hprompt.
  apply in_map_iff in Hkey as [category [<- Hcategory]].
  exists category, text. split; [assumption |]. split; [reflexivity |].
  unfold prompts_of in Hprompt.
  destruct (own_property (promptLibrary this) (category_key category))
    as [prompts |] eqn:Hown; [| contradiction].
  split.
  - apply (get_prompt_registered_name this category prompts name text Hown).
    + apply In_own_property; [| assumption].
      now apply (well_formed_category _ _ _ Hwf Hown).
    + now apply (texts_nonempty_prompt _ _ _ _ _ Hne Hown Hprompt).
  - apply Array_join_occurs.
    apply in_map_iff. exists (category_key category, (name, text)).
    split; [reflexivity | assumption].
Qed.

Lemma combine_prompts_includes_what_get_prompt_returns_witness :
  exists result,
    fst (combine_prompts [react; common] None agent) = Combined result
    /\ Forall (fun p =>
                 exists category text,
                   In category [react; common]
                   /\ category_key category = fst p
                   /\ fst (get_prompt category (snd p) agent) = PromptText (Str text)
                   /\ occurs (prompt_block (fst p) (snd p) text)
                             (combined_prompt result))
              (included_prompts result).
Proof.
  eexists. split; [vm_compute; reflexivity |].
  apply (combine_prompts_includes_what_get_prompt_returns agent [react; common] None).
  - exact initialized_loaded.
  - vm_compute. reflexivity.
Defined.

(** ** [search_prompts]: which prompts are hits *)

Lemma search_prompts_of_found (host : RegExpHost) (this : PromptLibraryMCP)
    (keyword : string) (categories : option (list PromptCategory))
    (found : list SearchMatch) :
  collect (category_result host (promptLibrary this) keyword)
          (search_categories (promptLibrary this) categories) = ok found ->
  fst (search_prompts host keyword categories this)
  = SearchResults
      {| search_keyword := keyword;
         results := map to_hit (Array_sort (fun a b => (0 <? by_relevance a b)%Z) found);
         total_found := List.length (Array_sort (fun a b => (0 <? by_relevance a b)%Z) found) |}.
Proof. intros H. rewrite search_prompts_collect. unfold ok in H. now rewrite H. Qed.

Lemma hit_keys_of_found (host : RegExpHost) (lib : PromptLibrary) (keyword : string)
    (categories : list string) (found : list SearchMatch) :
  collect (category_result host lib keyword) categories = ok found ->
  Permutation
    (map hit_key
         (map to_hit (Array_sort (fun a b => (0 <? by_relevance a b)%Z) found)))
    (map (fun d => (fst d, fst (snd d)))
         (filter (fun d => entry_matches keyword (snd d)) (searched lib categories))).
Proof.
  intros Hc. rewrite <- (found_in_discovery_order host lib keyword categories found Hc).
  rewrite !map_map. apply Permutation_map with (f := fun m => hit_key (to_hit m)).
  apply Array_sort_perm.
Qed.

(** X12: the hits of a search are the prompts of the searched categories
    that match the keyword, each as often as the search meets it; the total
    is the number of hits, and the keyword is echoed. *)
Theorem search_prompts_finds_the_matching_prompts :
  forall (host : RegExpHost) (this : PromptLibraryMCP) (keyword : string)
         (categories : option (list PromptCategory)) (output : SearchOutput),
    fst (search_prompts host keyword categories this) = SearchResults output ->
    Permutation
      (map hit_key (results output))
      (map (fun d => (fst d, fst (snd d)))
           (filter (fun d => entry_matches keyword (snd d))
                   (searched (promptLibrary this)
                             (search_categories (promptLibrary this) categories))))
    /\ total_found output = List.length (results output)
    /\ search_keyword output = keyword.
Proof.
  intros host this keyword categories output Hout.
  destruct (search_prompts_found _ _ _ _ _ Hout) as [found [_ [Hc [Hres [Htotal Hkey]]]]].
  split; [| split].
  - rewrite Hres. now apply hit_keys_of_found with (host := host).
  - rewrite Htotal, Hres, length_map. symmetry.
    apply Permutation_length, Array_sort_perm.
  - exact Hkey.
Qed.

Lemma search_prompts_finds_the_matching_prompts_witness :
  exists output,
    fst (search_prompts (fun _ _ => ok 0) "WCAG" None agent) = SearchResults output
    /\ map hit_key (results output) = [ ("fe", "accessibility") ]
    /\ total_found output = List.length (results output)
    /\ search_keyword output = "WCAG".
Proof.
  eexists. split; [vm_compute; reflexivity |]. split; [reflexivity |].
  apply (search_prompts_finds_the_matching_prompts (fun _ _ => ok 0) agent "WCAG" None).
  vm_compute. reflexivity.
Defined.

Lemma entry_matches_occurs (keyword : string) (entry : string * string) :
  entry_matches keyword entry = true
  <-> occurs (toLowerCase keyword) (toLowerCase (snd entry))
      \/ occurs (toLowerCase keyword) (toLowerCase (fst entry)).
Proof.
  unfold entry_matches. rewrite orb_true_iff, !includes_occurs. reflexivity.
Qed.

(** X13: a category and a name are those of a hit exactly when the category
    is searched and holds a prompt of that name in whose text or name, both
    taken in lower case, the keyword in lower case occurs. *)
Theorem search_prompts_hits_where_the_keyword_occurs :
  forall (host : RegExpHost) (this : PromptLibraryMCP) (keyword : string)
         (categories : option (list PromptCategory)) (output : SearchOutput),
    fst (search_prompts host keyword categories this) = SearchResults output ->
    forall category name,
      In (category, name) (map hit_key (results output))
      <-> exists text,
            In category (search_categories (promptLibrary this) categories)
            /\ In (name, text) (prompts_of (promptLibrary this) category)
            /\ (occurs (toLowerCase keyword) (toLowerCase text)
                \/ occurs (toLowerCase keyword) (toLowerCase name)).
Proof.
  intros host this keyword categories output Hout category name.
  destruct (search_prompts_found _ _ _ _ _ Hout) as [found [_ [Hc [Hres _]]]].
  pose proof (hit_keys_of_found _ _ _ _ _ Hc) as Hperm. rewrite <- Hres in Hperm.
  split.
  - intros Hin. apply (Permutation_in _ Hperm) in Hin.
    apply in_map_iff in Hin as [[c [n text]] [Heq Hin]].
    simpl in Heq. injection Heq as -> ->.
    apply filter_In in Hin as [Hs Hm]. apply searched_In in Hs as [Hcat Hprompt].
    exists text. split; [exact Hcat |]. split; [exact Hprompt |].
    now apply (entry_matches_occurs keyword (name, text)).
  - intros [text [Hcat [Hprompt Hocc]]].
    apply (Permutation_in _ (Permutation_sym Hperm)).
    apply in_map_iff. exists (category, (name, text)). split; [reflexivity |].
    apply filter_In. split.
    + apply searched_In. split; assumption.
    + now apply (entry_matches_occurs keyword (name, text)).
Qed.

Lemma search_prompts_hits_where_the_keyword_occurs_witness :
  exists output,
    fst (search_prompts (fun _ _ => ok 0) "Zustand" (Some [react]) agent)
    = SearchResults output
    /\ (In ("react", "state-management") (map hit_key (results output))
        <-> exists text,
              In "react" (search_categories (promptLibrary agent) (Some [react]))
              /\ In ("state-management", text) (prompts_of (promptLibrary agent) "react")
              /\ (occurs (toLowerCase "Zustand") (toLowerCase text)
                  \/ occurs (toLowerCase "Zustand") (toLowerCase "state-management"))).
Proof.
  eexists. split; [vm_compute; reflexivity |].
  apply (search_prompts_hits_where_the_keyword_occurs
           (fun _ _ => ok 0) agent "Zustand" (Some [react])).
  vm_compute. reflexivity.
Defined.

(** ** [search_prompts]: the keyword *)

Lemma collect_ext {A B : Type} (g g' : A -> Completion (list B)) (xs : list A) :
  (forall x, g x = g' x) -> collect g xs = collect g' xs.
Proof.
  intros H. induction xs as [| x xs IH]; simpl; [reflexivity |].
  now rewrite H, IH.
Qed.

Lemma category_result_lower (host : RegExpHost) (lib : PromptLibrary)
    (k1 k2 category : string) :
  toLowerCase k1 = toLowerCase k2 ->
  category_result host lib k1 category = category_result host lib k2 category.
Proof.
  intros H. unfold category_result. apply collect_ext. intros entry.
  unfold entry_result, entry_matches. now rewrite H.
Qed.

(** X14: two keywords that agree in lower case are searched alike: the two
    answers carry the same hits and the same total, or end in the same
    error.  A keyword is thus searched as its lower-case form is. *)
Theorem search_prompts_ignores_the_case_of_the_keyword :
  forall (host : RegExpHost) (this : PromptLibraryMCP) (k1 k2 : string)
         (categories : option (list PromptCategory)),
    toLowerCase k1 = toLowerCase k2 ->
    same_search (fst (search_prompts host k1 categories this))
                (fst (search_prompts host k2 categories this)).
Proof.
  intros host this k1 k2 categories H.
  rewrite !search_prompts_collect.
  rewrite (collect_ext _ _ _
             (fun category =>
                category_result_lower host (promptLibrary this) k1 k2 category H)).
  destruct (collect _ _); simpl; auto.
Qed.

Lemma search_prompts_ignores_the_case_of_the_keyword_witness :
  toLowerCase "SOLID" = toLowerCase "solid"
  /\ same_search (fst (search_prompts (fun _ _ => ok 0) "SOLID" None agent))
                 (fst (search_prompts (fun _ _ => ok 0) "solid" None agent)).
Proof.
  split; [reflexivity |].
  apply (search_prompts_ignores_the_case_of_the_keyword (fun _ _ => ok 0) agent).
  reflexivity.
Defined.

Lemma count_unit_parse (pattern : string) :
  0 < count_unit "("%char pattern -> parse_atoms pattern = None.
Proof.
  induction pattern as [| c t IH]; cbn [count_unit parse_atoms]; [lia |].
  intros H. destruct (Ascii.eqb "("%char c) eqn:E.
  - apply Ascii.eqb_eq in E. subst c. now destruct (parse_atoms t).
  - rewrite Nat.add_0_l in H. now rewrite (IH H).
Qed.

Lemma unterminated_group_parse (pattern : string) :
  unterminated_group pattern = true -> parse_atoms pattern = None.
Proof.
  unfold unterminated_group. intros H.
  apply andb_prop in H as [_ H]. apply Nat.ltb_lt in H.
  apply count_unit_parse. lia.
Qed.

Lemma collect_throw_or_empty {A B : Type} (g : A -> Completion (list B))
    (p : A -> bool) (e : Thrown) (xs : list A) :
  (forall x, g x = if p x then throw e else ok []) ->
  collect g xs = if existsb p xs then throw e else ok [].
Proof.
  intros Hg. induction xs as [| x xs IH]; simpl; [reflexivity |].
  rewrite Hg. destruct (p x); simpl; [reflexivity |].
  rewrite IH. now destruct (existsb p xs).
Qed.

Lemma existsb_searched (lib : PromptLibrary) (p : string * string -> bool)
    (categories : list string) :
  existsb (fun category => existsb p (prompts_of lib category)) categories
  = existsb (fun d => p (snd d)) (searched lib categories).
Proof.
  unfold searched. induction categories as [| c cs IH]; cbn [existsb flat_map];
    [reflexivity |].
  rewrite existsb_app, IH. f_equal.
  induction (prompts_of lib c) as [| entry entries IHe]; simpl; [reflexivity |].
  now rewrite IHe.
Qed.

(** X15: a keyword in which, in lower case, a group opens and never closes
    makes the search end in its catch block with the syntax error of the
    pattern when some prompt of the searched categories matches it, and
    yields the empty result list with a total of zero otherwise. *)
Theorem search_prompts_with_an_unterminated_group :
  forall (host : RegExpHost) (this : PromptLibraryMCP) (keyword : string)
         (categories : option (list PromptCategory)),
    unterminated_group (toLowerCase keyword) = true ->
    fst (search_prompts host keyword categories this)
    = if existsb (fun d => entry_matches keyword (snd d))
                 (searched (promptLibrary this)
                           (search_categories (promptLibrary this) categories))
      then Fault "Error searching prompts" (SyntaxError (toLowerCase keyword))
      else SearchResults {| search_keyword := keyword; results := [];
                            total_found := 0 |}.
Proof.
  intros host this keyword categories Hgroup.
  rewrite search_prompts_collect, <- existsb_searched.
  rewrite (collect_throw_or_empty _
             (fun category =>
                existsb (entry_matches keyword)
                        (prompts_of (promptLibrary this) category))
             (SyntaxError (toLowerCase keyword))).
  - now destruct (existsb _ _).
  - intros category. unfold category_result.
    apply collect_throw_or_empty. intros entry.
    unfold entry_result, global_match_count.
    rewrite (unterminated_group_parse _ Hgroup), Hgroup.
    now destruct (entry_matches keyword entry).
Qed.

Lemma search_prompts_with_an_unterminated_group_witness :
  unterminated_group (toLowerCase "(LCP") = true
  /\ fst (search_prompts (fun _ _ => ok 0) "(LCP" (Some [fe; react]) agent)
     = Fault "Error searching prompts" (SyntaxError "(lcp")
  /\ fst (search_prompts (fun _ _ => ok 0) "(LCP" (Some [react]) agent)
     = SearchResults {| search_keyword := "(LCP"; results := []; total_found := 0 |}.
Proof.
  split; [reflexivity |]. split.
  - rewrite (search_prompts_with_an_unterminated_group (fun _ _ => ok 0) agent
               "(LCP" (Some [fe; react]) eq_refl).
    vm_compute. reflexivity.
  - rewrite (search_prompts_with_an_unterminated_group (fun _ _ => ok 0) agent
               "(LCP" (Some [react]) eq_refl).
    vm_compute. reflexivity.
Defined.

(** ** [search_prompts]: bounds *)

Lemma snippet_length (content : string) : String.length (snippet content) <= 203.
Proof.
  unfold snippet. rewrite append_length.
  pose proof (substring_length_le 200 content).
  destruct (200 <? String.length content)%nat; simpl; lia.
Qed.

(** X16: a snippet has at most 203 code units, and it is shorter than its
    text whenever the text has more than 203. *)
Theorem search_prompts_snippet_length :
  forall (host : RegExpHost) (this : PromptLibraryMCP) (keyword : string)
         (categories : option (list PromptCategory)) (output : SearchOutput),
    fst (search_prompts host keyword categories this) = SearchResults output ->
    Forall (fun h =>
              String.length (hit_snippet h) <= 203
              /\ exists content,
                   In (hit_name h, content)
                      (prompts_of (promptLibrary this) (hit_category h))
                   /\ (203 < String.length content ->
                       String.length (hit_snippet h) < String.length content))
           (results output).
Proof.
  intros host this keyword categories output Hout.
  apply Forall_forall. intros h Hin.
  destruct (results_In _ _ _ _ _ _ Hout Hin) as [found [m [Hc [Hm ->]]]].
  destruct (found_In _ _ _ _ _ _ Hc Hm) as [_ [Hprompt _]].
  cbn [to_hit hit_name hit_category hit_snippet].
  pose proof (snippet_length (match_content m)) as Hlen.
  split; [exact Hlen |]. exists (match_content m). split; [exact Hprompt | lia].
Qed.

Lemma search_prompts_snippet_length_witness :
  exists output,
    fst (search_prompts (fun _ _ => ok 0) "aria" None agent) = SearchResults output
    /\ map (fun h => String.length (hit_snippet h)) (results output) = [203; 203]
    /\ Forall (fun h => String.length (hit_snippet h) <= 203) (results output).
Proof.
  eexists. split; [vm_compute; reflexivity |]. split; [vm_compute; reflexivity |].
  eapply Forall_impl;
    [| apply (search_prompts_snippet_length (fun _ _ => ok 0) agent "aria" None);
       vm_compute; reflexivity].
  intros h [H _]. exact H.
Defined.

Lemma occurrences_at_least_one (k s : string) (fuel : nat) :
  k <> "" -> includes s k = true -> String.length s <= fuel ->
  1 <= occurrences_within fuel k s.
Proof.
  intros Hk. revert fuel. induction s as [| c s IH]; intros fuel Hin Hlen.
  - rewrite includes_nil in Hin. apply prefix_append in Hin as [after Hin].
    destruct k; [contradiction | discriminate Hin].
  - destruct fuel as [| fuel]; [simpl in Hlen; lia |].
    rewrite includes_cons in Hin. cbn [occurrences_within].
    destruct (prefix k (String c s)); [lia |].
    apply IH; [exact Hin | simpl in Hlen; lia].
Qed.

Lemma occurrences_do_not_overlap (k s : string) (fuel : nat) :
  occurrences_within fuel k s * String.length k <= String.length s.
Proof.
  revert s. induction fuel as [| fuel IH]; intros s; [simpl; lia |].
  destruct s as [| c s]; [simpl; lia |]. cbn [occurrences_within].
  destruct (prefix k (String c s)) eqn:E.
  - apply prefix_length in E.
    specialize (IH (drop (String.length k) (String c s))).
    rewrite drop_length_exact in IH. lia.
  - specialize (IH s). simpl. lia.
Qed.

(** X17: for a non-empty keyword whose lower-case form has no pattern
    syntax character, every hit has a relevance of at least 1, and what its
    relevance exceeds 10 by, taken as many times as the keyword is long, does
    not exceed the length of its text: the occurrences counted lie side by
    side in the text. *)
Theorem search_prompts_relevance_bounds :
  forall (host : RegExpHost) (this : PromptLibraryMCP) (keyword : string)
         (categories : option (list PromptCategory)) (output : SearchOutput),
    keyword <> "" ->
    plain (toLowerCase keyword) = true ->
    fst (search_prompts host keyword categories this) = SearchResults output ->
    Forall (fun h =>
              exists content,
                In (hit_name h, content)
                   (prompts_of (promptLibrary this) (hit_category h))
                /\ 1 <= hit_relevance h
                /\ (hit_relevance h - 10) * String.length keyword
                   <= String.length content)
           (results output).
Proof.
  intros host this keyword categories output Hk Hplain Hout.
  assert (Hlk : toLowerCase keyword <> "")
    by (intros E; apply Hk; now apply toLowerCase_empty).
  apply Forall_forall. intros h Hin.
  destruct (results_In _ _ _ _ _ _ Hout Hin) as [found [m [Hc [Hm ->]]]].
  destruct (found_In _ _ _ _ _ _ Hc Hm) as [_ [Hprompt [Hmatch [n [Hn Hrel]]]]].
  exists (match_content m). cbn [to_hit hit_name hit_category hit_relevance].
  split; [exact Hprompt |].
  rewrite (global_match_count_plain host _ _ Hplain Hlk) in Hn.
  injection Hn as <-. unfold count_occurrences in Hrel.
  pose proof (occurrences_do_not_overlap (toLowerCase keyword)
                (toLowerCase (match_content m))
                (String.length (toLowerCase (match_content m)))) as Hupper.
  rewrite !toLowerCase_length in Hupper.
  unfold entry_matches in Hmatch. cbn [fst snd] in Hmatch.
  destruct (includes (toLowerCase (match_name m)) (toLowerCase keyword)).
  - split; [lia |]. rewrite toLowerCase_length in Hrel.
    replace (match_relevance m - 10)
      with (occurrences_within (String.length (match_content m))
              (toLowerCase keyword) (toLowerCase (match_content m))) by lia.
    exact Hupper.
  - rewrite orb_false_r in Hmatch.
    pose proof (occurrences_at_least_one _ _ _ Hlk Hmatch (le_n _)) as Hlower.
    split; [lia |].
    rewrite toLowerCase_length in Hrel.
    apply Nat.le_trans with (2 := Hupper).
    apply Nat.mul_le_mono_r. lia.
Qed.

Lemma search_prompts_relevance_bounds_witness :
  exists output,
    fst (search_prompts (fun _ _ => ok 0) "Component" (Some [react]) agent)
    = SearchResults output
    /\ map hit_relevance (results output) = [21; 3]
    /\ Forall (fun h => 1 <= hit_relevance h) (results output).
Proof.
  eexists. split; [vm_compute; reflexivity |]. split; [vm_compute; reflexivity |].
  eapply Forall_impl;
    [| apply (search_prompts_relevance_bounds (fun _ _ => ok 0) agent
                "Component" (Some [react]));
       [discriminate | reflexivity | vm_compute; reflexivity]].
  intros h [content [_ [H _]]]. exact H.
Defined.

(** ** [search_prompts]: the dot *)

Lemma match_count_dot (s : string) :
  match_count [Dot] 0 s = count_non_terminators s.
Proof.
  induction s as [| c s IH]; [reflexivity |].
  cbn [match_count match_here atom_matches List.length pred count_non_terminators].
  rewrite IH. now destruct (line_terminator c).
Qed.

Lemma entry_result_dot (host : RegExpHost) (category : string)
    (entry : string * string) (l : list SearchMatch) (m : SearchMatch) :
  entry_result host "." category entry = ok l -> In m l ->
  match_relevance m
  = (if includes (toLowerCase (match_name m)) "." then 10 else 0)
    + count_non_terminators (match_content m).
Proof.
  intros Hl Hm. destruct (entry_result_In _ _ _ _ _ _ Hl Hm) as [_ [_ [_ [n [Hn ->]]]]].
  unfold global_match_count in Hn. cbn [toLowerCase parse_atoms] in Hn.
  change (lower_unit ".") with "."%char in Hn. cbn in Hn.
  injection Hn as <-. now rewrite match_count_dot, count_non_terminators_lower.
Qed.

(** X18: the keyword that consists of a dot is read as the pattern that
    matches any code unit but a line terminator: the search does not fail,
    and the relevance of a hit is 10 for a name that holds a dot, plus the
    number of code units of the text that are not line terminators. *)
Theorem search_prompts_for_a_dot :
  forall (host : RegExpHost) (this : PromptLibraryMCP)
         (categories : option (list PromptCategory)),
    exists output,
      fst (search_prompts host "." categories this) = SearchResults output
      /\ Forall (fun h =>
                   exists content,
                     In (hit_name h, content)
                        (prompts_of (promptLibrary this) (hit_category h))
                     /\ hit_relevance h
                        = (if includes (toLowerCase (hit_name h)) "." then 10 else 0)
                          + count_non_terminators content)
                (results output).
Proof.
  intros host this categories.
  destruct (found_defined host (promptLibrary this) "."
              (search_categories (promptLibrary this) categories) [Dot] eq_refl)
    as [found Hc].
  eexists. split; [apply (search_prompts_of_found _ _ _ _ _ Hc) |].
  cbn [results]. apply Forall_forall. intros h Hin.
  apply in_map_iff in Hin as [m [<- Hm]].
  apply (Permutation_in _ (Array_sort_perm _ found)) in Hm.
  destruct (found_In _ _ _ _ _ _ Hc Hm) as [_ [Hprompt _]].
  exists (match_content m). cbn [to_hit hit_name hit_category hit_relevance].
  split; [exact Hprompt |].
  destruct (collect_In _ _ _ _ Hc Hm) as [category [l [_ [Hl Hml]]]].
  unfold category_result in Hl.
  destruct (collect_In _ _ _ _ Hl Hml) as [entry [l' [_ [Hl' Hml']]]].
  exact (entry_result_dot _ _ _ _ _ Hl' Hml').
Qed.

(** ** [search_prompts] and [get_prompt] *)

Lemma initialized_search_category (this : PromptLibraryMCP)
    (categories : option (list PromptCategory)) (key : string) :
  initialized this ->
  In key (search_categories (promptLibrary this) categories) ->
  exists category, category_key category = key.
Proof.
  intros Hinit Hin. destruct categories as [cs |].
  - apply in_map_iff in Hin as [category [Hkey _]]. now exists category.
  - destruct Hinit as [| error].
    + destruct Hin as [<- | [<- | [<- | []]]];
        [now exists react | now exists fe | now exists common].
    + contradiction.
Qed.

(** X19: on an initialized agent every hit of a search can be fetched: its
    category is one that the tool schemas admit, [get_prompt] on that
    category and the name of the hit returns a text, and the snippet of the
    hit is cut from that text. *)
Theorem search_prompts_hits_can_be_fetched :
  forall (host : RegExpHost) (this : PromptLibraryMCP) (keyword : string)
         (categories : option (list PromptCategory)) (output : SearchOutput),
    initialized this ->
    fst (search_prompts host keyword categories this) = SearchResults output ->
    Forall (fun h =>
              exists category text,
                category_key category = hit_category h
                /\ fst (get_prompt category (hit_name h) this) = PromptText (Str text)
                /\ hit_snippet h = snippet text)
           (results output).
Proof.
  intros host this keyword categories output Hinit Hout.
  destruct (initialized_library this Hinit) as [Hwf Hne].
  apply Forall_forall. intros h Hin.
  destruct (results_In _ _ _ _ _ _ Hout Hin) as [found [m [Hc [Hm ->]]]].
  destruct (found_In _ _ _ _ _ _ Hc Hm) as [Hcat [Hprompt _]].
  destruct (initialized_search_category _ _ _ Hinit Hcat) as [category Hkey].
  exists category, (match_content m).
  cbn [to_hit hit_name hit_category hit_snippet].
  split; [exact Hkey |]. split; [| reflexivity].
  rewrite <- Hkey in Hprompt. unfold prompts_of in Hprompt.
  destruct (own_property (promptLibrary this) (category_key category))
    as [prompts |] eqn:Hown; [| contradiction].
  apply (get_prompt_registered_name this category prompts _ _ Hown).
  - apply In_own_property; [| assumption].
    now apply (well_formed_category _ _ _ Hwf Hown).
  - now apply (texts_nonempty_prompt _ _ _ _ _ Hne Hown Hprompt).
Qed.

Lemma search_prompts_hits_can_be_fetched_witness :
  exists output,
    fst (search_prompts (fun _ _ => ok 0) "lazy" None agent) = SearchResults output
    /\ map hit_key (results output) = [ ("fe", "performance-optimization") ]
    /\ Forall (fun h =>
                 exists category text,
                   category_key category = hit_category h
                   /\ fst (get_prompt category (hit_name h) agent)
                      = PromptText (Str text)
                   /\ hit_snippet h = snippet text)
              (results output).
Proof.
  eexists. split; [vm_compute; reflexivity |]. split; [vm_compute; reflexivity |].
  apply (search_prompts_hits_can_be_fetched (fun _ _ => ok 0) agent "lazy" None).
  - exact initialized_loaded.
  - vm_compute. reflexivity.
Defined.

(** ** [search_prompts]: several category lists *)

Lemma collect_app {A B : Type} (g : A -> Completion (list B)) (xs ys : list A) :
  collect g (xs ++ ys)
  = bindE (collect g xs)
      (fun l => bindE (collect g ys) (fun r => ok (l ++ r)%list)).
Proof.
  induction xs as [| x xs IH]; simpl.
  - now destruct (collect g ys).
  - destruct (g x) as [e | l]; simpl; [reflexivity |].
    rewrite IH. destruct (collect g xs) as [e | l']; simpl; [reflexivity |].
    destruct (collect g ys) as [e | r]; simpl; [reflexivity |].
    now rewrite app_assoc.
Qed.

(** X20: when the searches of two category lists both succeed, so does the
    search of the first list followed by the second; its hits are those of
    the two searches taken together, sorted anew, and its total is the sum of
    the two totals.  A category named twice thus yields its hits twice. *)
Theorem search_prompts_of_concatenated_categories :
  forall (host : RegExpHost) (this : PromptLibraryMCP) (keyword : string)
         (cs1 cs2 : list PromptCategory) (o1 o2 : SearchOutput),
    fst (search_prompts host keyword (Some cs1) this) = SearchResults o1 ->
    fst (search_prompts host keyword (Some cs2) this) = SearchResults o2 ->
    exists o,
      fst (search_prompts host keyword (Some (cs1 ++ cs2)%list) this) = SearchResults o
      /\ Permutation (results o) (results o1 ++ results o2)%list
      /\ total_found o = total_found o1 + total_found o2
      /\ StronglySorted relevance_descends (results o).
Proof.
  intros host this keyword cs1 cs2 o1 o2 H1 H2.
  destruct (search_prompts_found _ _ _ _ _ H1) as [f1 [_ [C1 [R1 [T1 _]]]]].
  destruct (search_prompts_found _ _ _ _ _ H2) as [f2 [_ [C2 [R2 [T2 _]]]]].
  cbn [search_categories] in C1, C2.
  assert (C : collect (category_result host (promptLibrary this) keyword)
                      (search_categories (promptLibrary this) (Some (cs1 ++ cs2)%list))
              = ok (f1 ++ f2)%list).
  { cbn [search_categories]. rewrite map_app, collect_app.
    unfold ok in C1, C2. now rewrite C1, C2. }
  eexists. split; [apply (search_prompts_of_found _ _ _ _ _ C) |].
  cbn [results total_found]. split; [| split].
  - rewrite R1, R2, <- map_app. apply Permutation_map.
    apply perm_trans with (f1 ++ f2)%list; [apply Array_sort_perm |].
    apply Permutation_app; apply Permutation_sym, Array_sort_perm.
  - rewrite T1, T2, <- length_app. apply Permutation_length, Array_sort_perm.
  - apply (StronglySorted_map
             (fun a b => match_relevance b <= match_relevance a) relevance_descends).
    + intros a b Hab. exact Hab.
    + apply (Array_sort_sorted match_relevance). apply by_relevance_pos.
Qed.

Lemma search_prompts_of_concatenated_categories_witness :
  exists o,
    fst (search_prompts (fun _ _ => ok 0) "redux" (Some ([react; fe] ++ [react])%list) agent)
    = SearchResults o
    /\ map hit_key (results o)
       = [ ("react", "state-management"); ("react", "state-management") ]
    /\ total_found o = 2.
Proof.
  destruct (search_prompts_of_concatenated_categories (fun _ _ => ok 0) agent "redux"
              [react; fe] [react] _ _ eq_refl eq_refl)
    as [o [Ho _]].
  exists o. split; [exact Ho |].
  assert (E : SearchResults o
              = fst (search_prompts (fun _ _ => ok 0) "redux"
                       (Some ([react; fe] ++ [react])%list) agent))
    by (symmetry; exact Ho).
  vm_compute in E. injection E as ->. split; reflexivity.
Defined.

(** ** [get_categories] *)

(** X1: on an initialized agent the keys that [get_categories] returns are
    exactly the keys of the categories that [get_prompts_by_category] answers
    with a prompt list: every returned key is the key of such a category and
    every such category has its key returned.  For a category whose key is
    not returned, and only for such a category, [get_prompts_by_category]
    and [get_prompt] report that the category was not found. *)
Theorem get_categories_lists_the_answerable_categories :
  forall this : PromptLibraryMCP,
    initialized this ->
    exists keys,
      fst (get_categories this) = Categories keys
      /\ (forall key,
            In key keys <->
            exists category prompts count,
              category_key category = key
              /\ fst (get_prompts_by_category category this)
                 = PromptList key prompts count)
      /\ (forall category,
            ~ In (category_key category) keys <->
            fst (get_prompts_by_category category this)
            = CategoryNotFound (category_key category))
      /\ (forall category,
            ~ In (category_key category) keys <->
            forall name,
              fst (get_prompt category name this)
              = CategoryNotFound (category_key category)).
Proof.
  intros this Hinit. exists (Object_keys (promptLibrary this)).
  split; [reflexivity |]. split; [| split].
  - intros key. split.
    + intros Hin.
      destruct (initialized_search_category this None key Hinit Hin)
        as [category Hkey].
      destruct (category_answers_follow_the_keys this category)
        as [keys [Hkeys [Hlist _]]].
      injection Hkeys as <-. rewrite <- Hkey in Hin.
      destruct (proj1 Hlist Hin) as [prompts [count Hanswer]].
      exists category, prompts, count. split; [exact Hkey |].
      now rewrite <- Hkey.
    + intros [category [prompts [count [<- Hanswer]]]].
      destruct (category_answers_follow_the_keys this category)
        as [keys [Hkeys [Hlist _]]].
      injection Hkeys as <-. apply Hlist. now exists prompts, count.
  - intros category.
    destruct (category_answers_follow_the_keys this category)
      as [keys [Hkeys [_ [Hmissing _]]]].
    injection Hkeys as <-. exact Hmissing.
  - intros category.
    destruct (category_answers_follow_the_keys this category)
      as [keys [Hkeys [_ [_ Hmissing]]]].
    injection Hkeys as <-. exact Hmissing.
Qed.

Lemma get_categories_lists_the_answerable_categories_witness :
  exists keys,
    fst (get_categories agent) = Categories keys
    /\ keys = [ "react"; "fe"; "common" ]
    /\ (forall key,
          In key keys <->
          exists category prompts count,
            category_key category = key
            /\ fst (get_prompts_by_category category agent)
               = PromptList key prompts count).
Proof.
  destruct (get_categories_lists_the_answerable_categories agent initialized_loaded)
    as [keys [Hkeys [Hlist _]]].
  exists keys. split; [exact Hkeys |]. split; [| exact Hlist].
  injection Hkeys as <-. reflexivity.
Defined.
